(** * aps-simple-viewer-nodejs: the model-translation routes and the APS wrapper

    A shallow embedding of [routes/models.js] and of the pure parts of
    [services/apsApisWrapper.js], with the properties of the manifest parser,
    of the status route, of the result-directory allocator, of the
    translation job and of [urnify]. *)

From Stdlib Require Import String Ascii List Bool ZArith Lia.
Import ListNotations.
Local Open Scope string_scope.

(** ** JavaScript values and completions *)

#[local] Set Warnings "-register-all".

(** What [JSON.parse] can produce, plus [undefined] (the value of an absent
    property).  A number is carried by its canonical rendering
    ([Number::toString]); a string by its characters, each a code unit below
    U+0100; an object by its own properties in order, where the first binding
    of a key is the property's value. *)
Inductive value : Type :=
| VUndefined
| VNull
| VBool (b : bool)
| VNumber (repr : string)
| VString (s : string)
| VArray (elems : list value)
| VObject (props : list (string * value)).

(** The things that are thrown or returned as errors: [Error(msg)] built by
    the routes, a [TypeError] raised by the runtime, and what a call of the
    APS client is rejected with, of which the code reads [response.status]
    only ([None] when there is no response to read it from). *)
Inductive js_error : Type :=
| Error (msg : string)
| TypeError (msg : string)
| Rejection (response_status : option Z).

(** [e instanceof Error], for the errors this code builds or the runtime
    raises; nothing is assumed of a rejection of the client. *)
Definition instanceof_Error (e : js_error) : bool :=
  match e with
  | Error _ | TypeError _ => true
  | Rejection _ => false
  end.

(** The outcome of evaluating a piece of code: a value or a thrown error. *)
Inductive completion (A : Type) : Type :=
| Normal (a : A)
| Throw (e : js_error).
Arguments Normal {A} a.
Arguments Throw {A} e.

Definition bind {A B : Type} (c : completion A) (k : A -> completion B) : completion B :=
  match c with
  | Normal a => k a
  | Throw e => Throw e
  end.

Notation "x <- c ;; k" := (bind c (fun x => k))
  (at level 61, c at next level, right associativity).
Notation "' pat <- c ;; k" := (bind c (fun x => let 'pat := x in k))
  (at level 61, pat pattern, c at next level, right associativity).

(** [try { c } catch (err) { h(err) }] *)
Definition try_catch {A : Type} (c : completion A) (h : js_error -> completion A) : completion A :=
  match c with
  | Normal a => Normal a
  | Throw e => h e
  end.

(** ToBoolean. *)
Definition truthy (v : value) : bool :=
  match v with
  | VUndefined | VNull => false
  | VBool b => b
  | VNumber r => negb (String.eqb r "0" || String.eqb r "NaN")
  | VString s => negb (String.eqb s "")
  | VArray _ | VObject _ => true
  end.

Fixpoint lookup (k : string) (props : list (string * value)) : option value :=
  match props with
  | [] => None
  | (k', v) :: rest => if String.eqb k k' then Some v else lookup k rest
  end.

(** [v.f] for the data properties this code reads ([derivatives], [name],
    [children], [role], ...): none of them is on a built-in prototype, so on
    anything but an object with that own property the read gives
    [undefined]; on [undefined] and [null] it throws. *)
Definition get (v : value) (f : string) : completion value :=
  match v with
  | VUndefined | VNull => Throw (TypeError ("Cannot read properties of undefined or null: " ++ f))
  | VObject props =>
      match lookup f props with
      | Some x => Normal x
      | None => Normal VUndefined
      end
  | _ => Normal VUndefined
  end.

(** The sequence [for (const x of v)] runs through: the elements of an array,
    the characters of a string; anything else is not iterable. *)
Definition iterate (v : value) : completion (list value) :=
  match v with
  | VArray l => Normal l
  | VString s => Normal (map (fun c => VString (String c "")) (list_ascii_of_string s))
  | _ => Throw (TypeError "value is not iterable")
  end.

Fixpoint for_each {S : Type} (body : value -> S -> completion S)
    (l : list value) (s : S) : completion S :=
  match l with
  | [] => Normal s
  | x :: rest => s' <- body x s ;; for_each body rest s'
  end.

(** [for (const x of v) body] over the loop's variables [s]. *)
Definition for_of {S : Type} (v : value) (body : value -> S -> completion S)
    (s : S) : completion S :=
  l <- iterate v ;; for_each body l s.

(** [String.prototype.includes] *)
Definition str_includes (s sub : string) : bool :=
  match index 0 sub s with
  | Some _ => true
  | None => false
  end.

Definition is_string (lit : string) (v : value) : bool :=
  match v with
  | VString s => String.eqb s lit
  | _ => false
  end.

(** [v?.includes(lit)]: short-circuits to [undefined] on [undefined] and
    [null]; a string tests for a substring, an array for an element (by
    SameValueZero, so only the string [lit] itself matches); on anything
    else [includes] is not a function. *)
Definition optional_includes (v : value) (lit : string) : completion value :=
  match v with
  | VUndefined | VNull => Normal VUndefined
  | VString s => Normal (VBool (str_includes s lit))
  | VArray l => Normal (VBool (existsb (is_string lit) l))
  | _ => Throw (TypeError "includes is not a function")
  end.

Definition has_own (k : string) (props : list (string * value)) : bool :=
  match lookup k props with
  | Some _ => true
  | None => false
  end.

(** ToString, as [==] reaches it through ToPrimitive.  An array joins its
    elements with commas ([undefined] and [null] as the empty string); a
    parsed object is rendered by [Object.prototype.toString], unless an own
    [toString] property (never callable in parsed data) shadows it, which
    throws. *)
Fixpoint to_string (v : value) : completion string :=
  match v with
  | VUndefined => Normal "undefined"
  | VNull => Normal "null"
  | VBool true => Normal "true"
  | VBool false => Normal "false"
  | VNumber r => Normal r
  | VString s => Normal s
  | VArray l =>
      (fix join (l : list value) : completion string :=
         match l with
         | [] => Normal ""
         | x :: rest =>
             sx <- match x with
                   | VUndefined | VNull => Normal ""
                   | _ => to_string x
                   end ;;
             match rest with
             | [] => Normal sx
             | _ => srest <- join rest ;; Normal (sx ++ "," ++ srest)
             end
         end) l
  | VObject props =>
      if has_own "toString" props
      then Throw (TypeError "Cannot convert object to primitive value")
      else Normal "[object Object]"
  end.

(** [v == lit] for the string literals of this code (['complete'],
    ['success'] and the two role tags).  None of them reads as a number, so a
    number or a boolean never equals them; [undefined] and [null] equal only
    each other; an array or object is first converted to a string. *)
Definition loose_eq (v : value) (lit : string) : completion bool :=
  match v with
  | VUndefined | VNull | VBool _ | VNumber _ => Normal false
  | VString s => Normal (String.eqb s lit)
  | VArray _ | VObject _ => s <- to_string v ;; Normal (String.eqb s lit)
  end.

(** [a && b], where [b] is evaluated only if [a] is truthy. *)
Definition js_and (a : value) (b : completion value) : completion value :=
  if truthy a then b else Normal a.

(** ** routes/models.js: parseManifest *)

Definition role_PropertyDatabase : string := "Autodesk.CloudPlatform.PropertyDatabase".
Definition role_ModelData : string := "Autodesk.AEC.ModelData".

(** The object [{ cadFileName, sqLiteUrn, propertiesUrn }]; while the loops
    run, the three [let] variables. *)
Record summary : Type := mkSummary {
  cadFileName : value;
  sqLiteUrn : value;
  propertiesUrn : value
}.

(** What [parseManifest] returns: the summary object or an error value. *)
Inductive parsed : Type :=
| Summary (s : summary)
| Failure (e : js_error).

Definition derivativeIsOk (derivative : value) : completion value :=
  outputType <- get derivative "outputType" ;;
  a <- optional_includes outputType "svf" ;;
  js_and a (
    progress <- get derivative "progress" ;;
    b <- loose_eq progress "complete" ;;
    js_and (VBool b) (
      status <- get derivative "status" ;;
      c <- loose_eq status "success" ;;
      js_and (VBool c) (get derivative "children"))).

(** The body of the inner loop, over one child. *)
Definition visit_child (child : value) (s : summary) : completion summary :=
  role <- get child "role" ;;
  isDb <- loose_eq role role_PropertyDatabase ;;
  s1 <- (if isDb
         then urn <- get child "urn" ;;
              Normal (mkSummary (cadFileName s) urn (propertiesUrn s))
         else Normal s) ;;
  role' <- get child "role" ;;
  isData <- loose_eq role' role_ModelData ;;
  if isData
  then urn <- get child "urn" ;;
       Normal (mkSummary (cadFileName s1) (sqLiteUrn s1) urn)
  else Normal s1.

(** The body of the outer loop, over one derivative. *)
Definition visit_derivative (derivative : value) (s : summary) : completion summary :=
  ok <- derivativeIsOk derivative ;;
  if negb (truthy ok) then Normal s  (* continue *)
  else
    name <- get derivative "name" ;;
    children <- get derivative "children" ;;
    for_of children visit_child (mkSummary name (sqLiteUrn s) (propertiesUrn s)).

Definition initial_summary : summary :=
  mkSummary (VString "") (VString "") (VString "").

(** The [try] block. *)
Definition parseManifest_try (manifest : value) : completion parsed :=
  if negb (truthy manifest) then Normal (Failure (Error "no manifest received"))
  else
    derivatives <- get manifest "derivatives" ;;
    if negb (truthy derivatives) then Normal (Failure (Error "manifest has no derivatives"))
    else
      s <- for_of derivatives visit_derivative initial_summary ;;
      Normal (Summary s).

Definition parseManifest (manifest : value) : completion parsed :=
  try_catch (parseManifest_try manifest) (fun err => Normal (Failure err)).

(** Manifests of the examples. *)
Definition house_children : value :=
  VArray [ VObject [("role", VString "Autodesk.CloudPlatform.PropertyDatabase");
                    ("type", VString "resource"); ("urn", VString "U1")];
           VObject [("role", VString "Autodesk.AEC.ModelData");
                    ("type", VString "resource"); ("urn", VString "U2")] ].

Definition house_manifest : value :=
  VObject [("derivatives",
            VArray [ VObject [("outputType", VString "svf");
                              ("progress", VString "complete");
                              ("status", VString "success");
                              ("name", VString "house.rvt");
                              ("children", house_children)] ])].

(** ** routes/models.js: the status route *)

(** What a route handler does with the request: [res.json(body)] or
    [next(err)]. *)
Inductive reply : Type :=
| Json (body : value)
| Next (err : js_error).

(** [a || b] *)
Definition js_or (a b : value) : value :=
  if truthy a then a else b.

(** [arr.concat(x)]: a new array, [arr] followed by the elements of [x] when
    [x] is an array and by [x] itself otherwise; [arr] is left as it was. *)
Definition array_concat (arr : list value) (x : value) : list value :=
  match x with
  | VArray l => (arr ++ l)%list
  | _ => (arr ++ [x])%list
  end.

(** The inner loop's body: the array that [concat] builds is dropped. *)
Definition status_child (child : value) (messages : list value) : completion (list value) :=
  m <- get child "messages" ;;
  let _ := array_concat messages (js_or m (VArray [])) in
  Normal messages.

Definition status_derivative (derivative : value) (messages : list value)
    : completion (list value) :=
  m <- get derivative "messages" ;;
  let messages := array_concat messages (js_or m (VArray [])) in
  children <- get derivative "children" ;;
  if truthy children then for_of children status_child messages
  else Normal messages.

(** The message list of the status route, for a truthy manifest. *)
Definition status_messages (manifest : value) : completion (list value) :=
  derivatives <- get manifest "derivatives" ;;
  if truthy derivatives then for_of derivatives status_derivative []
  else Normal [].

(** The handler's [try] block once [getManifest] has settled with
    [fetched]. *)
Definition status_try (fetched : completion value) : completion reply :=
  manifest <- fetched ;;
  if truthy manifest then
    messages <- status_messages manifest ;;
    status <- get manifest "status" ;;
    progress <- get manifest "progress" ;;
    Normal (Json (VObject [("status", status); ("progress", progress);
                           ("messages", VArray messages)]))
  else Normal (Json (VObject [("status", VString "n/a")])).

(** ** services/apsApisWrapper.js *)

(** [getManifest], given how the call to the Model Derivative API settles:
    with the response body, or with a rejection.  A rejection without a
    [response] makes the handler's own [err.response.status] throw. *)
Definition getManifest_of (call : completion value) : completion value :=
  try_catch call (fun err =>
    match err with
    | Rejection (Some status) =>
        if Z.eqb status 404 then Normal VNull else Throw err
    | _ => Throw (TypeError "Cannot read properties of undefined (reading 'status')")
    end).

(** The job object [translateObject] sends. *)
Definition translation_output : value :=
  VObject [("formats",
            VArray [VObject [("type", VString "svf2");
                             ("views", VArray [VString "2d"; VString "3d"])]])].

Definition translation_job (urn rootFilename : value) : value :=
  let input := [("urn", urn)] in
  let input := if truthy rootFilename
               then (input ++ [("compressedUrn", VBool true); ("rootFilename", rootFilename)])%list
               else input in
  VObject [("input", VObject input); ("output", translation_output)].

Section Service.

(** The Model Derivative API: how [getManifest] and [translate] settle. *)
Variable aps_getManifest : string -> completion value.
Variable aps_translate : value -> completion value.

Definition getManifest (urn : string) : completion value :=
  getManifest_of (aps_getManifest urn).

Definition translateObject (urn rootFilename : value) : completion value :=
  aps_translate (translation_job urn rootFilename).

(** [GET /api/models/:urn/status] *)
Definition status_route (urn : string) : reply :=
  match status_try (getManifest urn) with
  | Normal r => r
  | Throw err => Next err
  end.

End Service.

(** ** services/apsApisWrapper.js: urnify *)

(** [urnify] is modelled on every JavaScript string: a sequence of UTF-16
    code units, each given by its high and its low byte. *)
Definition code_unit : Type := (ascii * ascii)%type.
Definition js_string : Type := list code_unit.

(** The JavaScript string of a string value: its characters as code units. *)
Definition js_string_of (s : string) : js_string :=
  map (fun c => (zero, c)) (list_ascii_of_string s).

(** The units D800-DBFF and DC00-DFFF; [Ascii] lists the bits of a byte from
    the least significant. *)
Definition is_high_surrogate (u : code_unit) : bool :=
  match fst u with
  | Ascii _ _ false true true false true true => true
  | _ => false
  end.

Definition is_low_surrogate (u : code_unit) : bool :=
  match fst u with
  | Ascii _ _ true true true false true true => true
  | _ => false
  end.

(** The UTF-8 bytes of a unit that is no surrogate: one byte below U+0080,
    two below U+0800, three otherwise. *)
Definition encode_unit (u : code_unit) : list ascii :=
  let '(Ascii h0 h1 h2 h3 h4 h5 h6 h7, Ascii l0 l1 l2 l3 l4 l5 l6 l7) := u in
  if negb (h7 || h6 || h5 || h4 || h3) then
    if negb (h2 || h1 || h0 || l7) then
      [ Ascii l0 l1 l2 l3 l4 l5 l6 false ]
    else
      [ Ascii l6 l7 h0 h1 h2 false true true;
        Ascii l0 l1 l2 l3 l4 l5 false true ]
  else
    [ Ascii h4 h5 h6 h7 false true true true;
      Ascii l6 l7 h0 h1 h2 h3 false true;
      Ascii l0 l1 l2 l3 l4 l5 false true ].

(** Four bits plus one, on five bits (the most significant first). *)
Definition plus_one (w : bool * bool * bool * bool) : bool * bool * bool * bool * bool :=
  let '(w3, w2, w1, w0) := w in
  (w3 && w2 && w1 && w0, xorb w3 (w2 && w1 && w0), xorb w2 (w1 && w0), xorb w1 w0,
   negb w0).

(** The four UTF-8 bytes of a surrogate pair: the code point is U+10000 plus
    the ten low bits of each unit. *)
Definition encode_pair (u v : code_unit) : list ascii :=
  let '(Ascii w2 w3 _ _ _ _ _ _, Ascii x0 x1 x2 x3 x4 x5 w0 w1) := u in
  let '(Ascii y8 y9 _ _ _ _ _ _, Ascii y0 y1 y2 y3 y4 y5 y6 y7) := v in
  let '(u4, u3, u2, u1, u0) := plus_one (w3, w2, w1, w0) in
  [ Ascii u2 u3 u4 false true true true true;
    Ascii x2 x3 x4 x5 u0 u1 false true;
    Ascii y6 y7 y8 y9 x0 x1 false true;
    Ascii y0 y1 y2 y3 y4 y5 false true ].

(** The bytes EF BF BD of U+FFFD, written for a surrogate without its
    partner. *)
Definition replacement : list ascii := ["239"%char; "191"%char; "189"%char].

(** [Buffer.from(id)]: the UTF-8 encoding of the string. *)
Fixpoint Buffer_from (id : js_string) : list ascii :=
  match id with
  | [] => []
  | u :: rest =>
      if is_high_surrogate u then
        match rest with
        | v :: rest' =>
            if is_low_surrogate v then encode_pair u v ++ Buffer_from rest'
            else replacement ++ Buffer_from rest
        | [] => replacement
        end
      else if is_low_surrogate u then replacement ++ Buffer_from rest
      else encode_unit u ++ Buffer_from rest
  end.

Definition base64_alphabet : string :=
  "ABCDEFGHIJKLMNOPQRSTUVWXYZabcdefghijklmnopqrstuvwxyz0123456789+/".

(** Six bits, the most significant first. *)
Definition sextet : Type := (bool * bool * bool * bool * bool * bool)%type.

Definition sextet_index (s : sextet) : nat :=
  let '(a, b, c, d, e, f) := s in
  (if a then 32 else 0) + (if b then 16 else 0) + (if c then 8 else 0) +
  (if d then 4 else 0) + (if e then 2 else 0) + (if f then 1 else 0).

Definition base64_char (s : sextet) : ascii :=
  match String.get (sextet_index s) base64_alphabet with
  | Some c => c
  | None => "="%char
  end.

(** Three bytes give four characters; [Ascii] lists the bits of a byte from
    the least significant. *)
Definition encode3 (x y z : ascii) : list ascii :=
  let '(Ascii x0 x1 x2 x3 x4 x5 x6 x7) := x in
  let '(Ascii y0 y1 y2 y3 y4 y5 y6 y7) := y in
  let '(Ascii z0 z1 z2 z3 z4 z5 z6 z7) := z in
  [ base64_char (x7, x6, x5, x4, x3, x2);
    base64_char (x1, x0, y7, y6, y5, y4);
    base64_char (y3, y2, y1, y0, z7, z6);
    base64_char (z5, z4, z3, z2, z1, z0) ].

(** Two trailing bytes give three characters and one pad. *)
Definition encode2 (x y : ascii) : list ascii :=
  let '(Ascii x0 x1 x2 x3 x4 x5 x6 x7) := x in
  let '(Ascii y0 y1 y2 y3 y4 y5 y6 y7) := y in
  [ base64_char (x7, x6, x5, x4, x3, x2);
    base64_char (x1, x0, y7, y6, y5, y4);
    base64_char (y3, y2, y1, y0, false, false);
    "="%char ].

(** One trailing byte gives two characters and two pads. *)
Definition encode1 (x : ascii) : list ascii :=
  let '(Ascii x0 x1 x2 x3 x4 x5 x6 x7) := x in
  [ base64_char (x7, x6, x5, x4, x3, x2);
    base64_char (x1, x0, false, false, false, false);
    "="%char; "="%char ].

(** [buf.toString('base64')] *)
Fixpoint base64 (bytes : list ascii) : list ascii :=
  match bytes with
  | [] => []
  | [x] => encode1 x
  | [x; y] => encode2 x y
  | x :: y :: z :: rest => (encode3 x y z ++ base64 rest)%list
  end.

(** [.replace(/=/g, '')] *)
Definition strip_padding (cs : list ascii) : list ascii :=
  filter (fun c => negb (Ascii.eqb c "=")) cs.

Definition urnify (id : js_string) : string :=
  string_of_list_ascii (strip_padding (base64 (Buffer_from id))).


(** A string whose last unit is a high surrogate, which a following string
    could complete. *)
Fixpoint ends_with_high_surrogate (id : js_string) : bool :=
  match id with
  | [] => false
  | [u] => is_high_surrogate u
  | _ :: rest => ends_with_high_surrogate rest
  end.



Definition grinning_face : js_string :=
  [("216"%char, "061"%char); ("222"%char, "000"%char)].






(** ** Node's [path] (POSIX) and [fs], as far as the routes use them *)

Definition slash : ascii := "/"%char.

(** [s.split('/')] *)
Fixpoint split_slash (s : string) : list string :=
  match s with
  | EmptyString => [EmptyString]
  | String c rest =>
      if Ascii.eqb c slash then EmptyString :: split_slash rest
      else match split_slash rest with
           | [] => [String c EmptyString]
           | seg :: segs => String c seg :: segs
           end
  end.

(** [segs.join('/')] *)
Fixpoint join_slash (segs : list string) : string :=
  match segs with
  | [] => EmptyString
  | [seg] => seg
  | seg :: rest => seg ++ "/" ++ join_slash rest
  end.

(** [normalizeString], one path segment at a time; [res] holds the segments
    kept so far, the last one first.  Empty and [.] segments are dropped; [..]
    removes the segment before it, unless there is none or it is itself [..],
    in which case it is kept only when the path may climb above its root. *)
Fixpoint normalize_segments (allowAboveRoot : bool) (segs res : list string) : list string :=
  match segs with
  | [] => rev res
  | seg :: rest =>
      if String.eqb seg "" || String.eqb seg "." then
        normalize_segments allowAboveRoot rest res
      else if String.eqb seg ".." then
        match res with
        | last :: before =>
            if String.eqb last ".."
            then normalize_segments allowAboveRoot rest
                   (if allowAboveRoot then ".." :: res else res)
            else normalize_segments allowAboveRoot rest before
        | [] =>
            normalize_segments allowAboveRoot rest
              (if allowAboveRoot then [".."] else [])
        end
      else normalize_segments allowAboveRoot rest (seg :: res)
  end.

Definition starts_with_slash (p : string) : bool :=
  match p with
  | String c _ => Ascii.eqb c slash
  | EmptyString => false
  end.

Definition ends_with_slash (p : string) : bool :=
  match rev (list_ascii_of_string p) with
  | c :: _ => Ascii.eqb c slash
  | [] => false
  end.

(** [path.normalize] *)
Definition path_normalize (p : string) : string :=
  if String.eqb p "" then "."
  else
    let isAbsolute := starts_with_slash p in
    let trailingSeparator := ends_with_slash p in
    let q := join_slash (normalize_segments (negb isAbsolute) (split_slash p) []) in
    if String.eqb q "" then
      if isAbsolute then "/" else if trailingSeparator then "./" else "."
    else
      let q := if trailingSeparator then q ++ "/" else q in
      if isAbsolute then "/" ++ q else q.

(** [path.join(...args)] *)
Definition path_join (args : list string) : string :=
  match filter (fun a => negb (String.eqb a "")) args with
  | [] => "."
  | parts => path_normalize (join_slash parts)
  end.

Fixpoint drop_slashes (cs : list ascii) : list ascii :=
  match cs with
  | c :: rest => if Ascii.eqb c slash then drop_slashes rest else cs
  | [] => []
  end.

Fixpoint take_segment (cs : list ascii) : list ascii :=
  match cs with
  | c :: rest => if Ascii.eqb c slash then [] else c :: take_segment rest
  | [] => []
  end.

(** [path.basename(p)]: scanning from the end, the trailing slashes are
    skipped and the characters up to the next slash are the result. *)
Definition path_basename (p : string) : string :=
  string_of_list_ascii
    (rev (take_segment (drop_slashes (rev (list_ascii_of_string p))))).

(** [path.dirname(p)] of a normalized absolute path, for the parent that
    [mkdir] needs. *)
Definition parent_directory (p : string) : string :=
  match rev (split_slash p) with
  | _ :: before =>
      match rev before with
      | [] | [EmptyString] => "/"
      | segs => join_slash segs
      end
  | [] => "/"
  end.

(** The file system: the normalized absolute paths that exist. *)
Definition file_system : Type := list string.

Definition existsSync (p : string) (fs : file_system) : bool :=
  existsb (String.eqb p) fs.

(** [fs.mkdirSync(p)], not recursive: it needs the parent to exist and throws
    otherwise.  The other ways the call can fail (a name with a NUL byte, a
    name too long, a missing permission) are not modelled. *)
Definition mkdirSync (p : string) (fs : file_system) : completion file_system :=
  if existsSync p fs then Throw (Error ("EEXIST: file already exists, mkdir " ++ p))
  else if existsSync (parent_directory p) fs then Normal (p :: fs)
  else Throw (Error ("ENOENT: no such file or directory, mkdir " ++ p)).

(** ** routes/models.js: createResultDirectory *)

Definition createDirectory (dirPath : string) (fs : file_system)
    : completion (bool * file_system) :=
  fs' <- (if negb (existsSync dirPath fs) then mkdirSync dirPath fs else Normal fs) ;;
  Normal (existsSync dirPath fs', fs').

(** What [createResultDirectory] returns: the path or an error value. *)
Inductive allocation : Type :=
| Directory (path : string)
| AllocationError (e : js_error).

Section ResultDirectory.

(** The directory of [routes/models.js]. *)
Variable __dirname : string.

Definition baseResultDir : string := path_join [__dirname; ".."; "results"].

Definition createResultDirectory (cadFileName : value) (fs : file_system)
    : completion (allocation * file_system) :=
  if negb (truthy cadFileName)
  then Normal (AllocationError (Error "No CAD file name provided."), fs)
  else
    '(created, fs) <- createDirectory baseResultDir fs ;;
    if negb created
    then Normal (AllocationError (Error "Could not create base results directory."), fs)
    else
      name <- match cadFileName with
              | VString s => Normal (path_basename s)
              | _ => Throw (TypeError "The path argument must be of type string")
              end ;;
      let resultDir := path_join [baseResultDir; name] in
      '(created, fs) <- createDirectory resultDir fs ;;
      if negb created
      then Normal (AllocationError (Error "Could not create results directory."), fs)
      else Normal (Directory resultDir, fs).

End ResultDirectory.

(** ** Well-formed manifests

    The manifest the Model Derivative API documents, with every property
    optional, and the JavaScript value that stands for it. *)

Record DerivativeChild : Type := mkChild {
  child_role : option string;
  child_type : option string;
  child_urn : option string;
  child_messages : option (list string)
}.

Record Derivative : Type := mkDerivative {
  outputType : option string;
  progress : option string;
  status : option string;
  name : option string;
  messages : option (list string);
  children : option (list DerivativeChild)
}.

Record Manifest : Type := mkManifest {
  manifest_status : option string;
  manifest_progress : option string;
  derivatives : option (list Derivative)
}.

(** The own property [k] of an object, when it is there. *)
Definition property {A : Type} (k : string) (to_value : A -> value) (o : option A)
    : list (string * value) :=
  match o with
  | Some a => [(k, to_value a)]
  | None => []
  end.

Definition value_of_strings (l : list string) : value := VArray (map VString l).

Definition value_of_child (c : DerivativeChild) : value :=
  VObject (property "role" VString (child_role c) ++
           property "type" VString (child_type c) ++
           property "urn" VString (child_urn c) ++
           property "messages" value_of_strings (child_messages c))%list.

Definition value_of_derivative (d : Derivative) : value :=
  VObject (property "outputType" VString (outputType d) ++
           property "progress" VString (progress d) ++
           property "status" VString (status d) ++
           property "name" VString (name d) ++
           property "messages" value_of_strings (messages d) ++
           property "children" (fun cs => VArray (map value_of_child cs)) (children d))%list.

Definition value_of_manifest (m : Manifest) : value :=
  VObject (property "status" VString (manifest_status m) ++
           property "progress" VString (manifest_progress m) ++
           property "derivatives" (fun ds => VArray (map value_of_derivative ds))
             (derivatives m))%list.

(** The value of an optional string property when read. *)
Definition read (o : option string) : value :=
  match o with
  | Some s => VString s
  | None => VUndefined
  end.

(** A derivative passes the filter when [derivativeIsOk] returns a truthy
    value for it, and is skipped when it returns a falsy one. *)
Definition passes_filter (d : Derivative) : Prop :=
  exists v, derivativeIsOk (value_of_derivative d) = Normal v /\ truthy v = true.

Definition skipped (d : Derivative) : Prop :=
  exists v, derivativeIsOk (value_of_derivative d) = Normal v /\ truthy v = false.

Definition has_role (tag : string) (c : DerivativeChild) : Prop :=
  child_role c = Some tag.

(** The loops of [parseManifest] as they run on a well-formed manifest; the
    lemmas below show that [visit_child] and [visit_derivative] compute
    them. *)
Definition role_is (tag : string) (c : DerivativeChild) : bool :=
  match child_role c with
  | Some r => String.eqb r tag
  | None => false
  end.

Definition child_step (s : summary) (c : DerivativeChild) : summary :=
  let s1 := if role_is role_PropertyDatabase c
            then mkSummary (cadFileName s) (read (child_urn c)) (propertiesUrn s)
            else s in
  if role_is role_ModelData c
  then mkSummary (cadFileName s1) (sqLiteUrn s1) (read (child_urn c))
  else s1.

Definition is_literal (lit : string) (o : option string) : bool :=
  match o with
  | Some s => String.eqb s lit
  | None => false
  end.

Definition derivative_ok (d : Derivative) : bool :=
  match outputType d, children d with
  | Some o, Some _ =>
      str_includes o "svf" && is_literal "complete" (progress d)
      && is_literal "success" (status d)
  | _, _ => false
  end.

Definition children_of (d : Derivative) : list DerivativeChild :=
  match children d with
  | Some cs => cs
  | None => []
  end.

Definition derivative_step (s : summary) (d : Derivative) : summary :=
  if derivative_ok d
  then fold_left child_step (children_of d)
         (mkSummary (read (name d)) (sqLiteUrn s) (propertiesUrn s))
  else s.

(** The manifest [m] cut down to the derivatives [ds]. *)
Definition with_derivatives (m : Manifest) (ds : list Derivative) : Manifest :=
  mkManifest (manifest_status m) (manifest_progress m) (Some ds).

(** Manifests of the examples: a finished [svf] derivative and a child with
    a role, a type and a urn. *)
Definition finished (file : string) (cs : list DerivativeChild) : Derivative :=
  mkDerivative (Some "svf") (Some "complete") (Some "success") (Some file) None (Some cs).

Definition child_of_type (type role urn : string) : DerivativeChild :=
  mkChild (Some role) (Some type) (Some urn) None.

Definition manifest_of (ds : list Derivative) : Manifest :=
  mkManifest (Some "success") (Some "complete") (Some ds).

Definition geometry_database : DerivativeChild :=
  child_of_type "geometry" role_PropertyDatabase "U1".

Definition geometry_manifest : Manifest :=
  manifest_of [finished "house.rvt" [geometry_database]].

Definition database_node : Derivative :=
  finished "a.rvt" [child_of_type "resource" role_PropertyDatabase "U1"].

Definition data_node : Derivative :=
  finished "b.rvt" [child_of_type "resource" role_ModelData "U2"].

Definition bare_node : Derivative := finished "c.rvt" [].

Definition three_node_manifest : Manifest :=
  manifest_of [database_node; data_node; bare_node].

Definition empty_manifest : value := VObject [("derivatives", VArray [])].

(** A manifest whose derivative and whose derivative's child both carry a
    message. *)
Definition noisy_manifest : value :=
  VObject [("status", VString "success"); ("progress", VString "complete");
           ("derivatives",
            VArray [VObject [("messages", VArray [VString "parent"]);
                             ("children",
                              VArray [VObject [("messages",
                                                VArray [VString "child"])]])]])].

(** The messages of a derivative, none when the property is absent. *)
Definition messages_of (d : Derivative) : list string :=
  match messages d with
  | Some l => l
  | None => []
  end.

(** A file system in which the application lives in [/app]. *)
Definition app_file_system : file_system := ["/"; "/app"; "/app/routes"].

(** A name without a slash, and a name that is a directory entry of its
    own: not empty, not [.] and not [..]. *)
Definition no_slash (s : string) : Prop := ~ In slash (list_ascii_of_string s).

Definition proper_name (s : string) : Prop :=
  s <> "" /\ s <> "." /\ s <> "..".

(** The manifest [m] with the type of every child [c] replaced by [f c]. *)
Definition retype_child (f : DerivativeChild -> option string) (c : DerivativeChild)
    : DerivativeChild :=
  mkChild (child_role c) (f c) (child_urn c) (child_messages c).

Definition retype_derivative (f : DerivativeChild -> option string) (d : Derivative)
    : Derivative :=
  mkDerivative (outputType d) (progress d) (status d) (name d) (messages d)
    (option_map (map (retype_child f)) (children d)).

Definition retype_manifest (f : DerivativeChild -> option string) (m : Manifest)
    : Manifest :=
  mkManifest (manifest_status m) (manifest_progress m)
    (option_map (map (retype_derivative f)) (derivatives m)).

(** A completion that, when it throws, throws an [Error] instance. *)
Definition throws_only_errors {A : Type} (c : completion A) : Prop :=
  match c with
  | Normal _ => True
  | Throw e => instanceof_Error e = true
  end.

(** ** Further observations *)

(** A completion that, when it throws, throws a [TypeError]. *)
Definition is_TypeError (e : js_error) : Prop :=
  match e with
  | TypeError _ => True
  | _ => False
  end.

Definition throws_only_TypeError {A : Type} (c : completion A) : Prop :=
  match c with
  | Normal _ => True
  | Throw e => is_TypeError e
  end.

(** [passing] is [ds] without the derivatives that the filter skips: the
    passing ones, each once and in the order of [ds]. *)
Inductive passing_in_order : list Derivative -> list Derivative -> Prop :=
| passing_nil : passing_in_order [] []
| passing_keep (d : Derivative) (ds passing : list Derivative) :
    passes_filter d -> passing_in_order ds passing ->
    passing_in_order (d :: ds) (d :: passing)
| passing_skip (d : Derivative) (ds passing : list Derivative) :
    skipped d -> passing_in_order ds passing ->
    passing_in_order (d :: ds) passing.

(** A derivative whose translation still runs. *)
Definition in_progress_node : Derivative :=
  mkDerivative (Some "svf") (Some "inprogress") (Some "inprogress") (Some "house.rvt")
    None (Some [child_of_type "resource" role_PropertyDatabase "U1"]).

(** ** services/apsApisWrapper.js: getDerivativeDownloadUrn *)

(** An element of an array inside [join]: [undefined] and [null] give the
    empty string. *)
Definition join_element (x : value) : completion string :=
  match x with
  | VUndefined | VNull => Normal ""
  | _ => to_string x
  end.

(** [arr.join(sep)] *)
Fixpoint array_join (sep : string) (l : list value) : completion string :=
  match l with
  | [] => Normal ""
  | [x] => join_element x
  | x :: rest =>
      sx <- join_element x ;;
      srest <- array_join sep rest ;;
      Normal (sx ++ sep ++ srest)
  end.

(** [v.join(sep)]: only an array has the method. *)
Definition method_join (v : value) (sep : string) : completion string :=
  match v with
  | VUndefined | VNull =>
      Throw (TypeError "Cannot read properties of undefined (reading 'join')")
  | VArray l => array_join sep l
  | _ => Throw (TypeError "join is not a function")
  end.

(** [getDerivativeDownloadUrn], given how the call to the Model Derivative
    API settles: with the response, of which the body and the [set-cookie]
    header are read, or with a rejection. *)
Definition getDerivativeDownloadUrn_of (call : completion value) : completion value :=
  resp <- call ;;
  data <- get resp "body" ;;
  headers <- get resp "headers" ;;
  cookies <- get headers "set-cookie" ;;
  cookieValue <- method_join cookies ";" ;;
  Normal (VObject [("data", data); ("cookieValue", VString cookieValue)]).

(** ** routes/models.js: the properties route *)

(** The three properties read from what [parseManifest] returned; an error
    value has none of them. *)
Definition fields_of (p : parsed) : summary :=
  match p with
  | Summary s => s
  | Failure _ => mkSummary VUndefined VUndefined VUndefined
  end.

(** [p instanceof Error] *)
Definition parsed_is_Error (p : parsed) : option js_error :=
  match p with
  | Failure e => if instanceof_Error e then Some e else None
  | Summary _ => None
  end.

Section PropertiesRoute.

Variable aps_getManifest : string -> completion value.
Variable aps_getDerivativeDownloadUrl : string -> value -> completion value.
Variable __dirname : string.

Definition getDerivativeDownloadUrn (urn : string) (derivativeUrn : value)
    : completion value :=
  getDerivativeDownloadUrn_of (aps_getDerivativeDownloadUrl urn derivativeUrn).

(** The handler's [try] block: the answer it sends, if it sends one. *)
Definition properties_try (urn : string) (fs : file_system) : completion (option reply) :=
  manifest <- getManifest aps_getManifest urn ;;
  parsedManifest <- parseManifest manifest ;;
  match parsed_is_Error parsedManifest with
  | Some err => Normal (Some (Next err))
  | None =>
      '(resultDir, _) <- createResultDirectory __dirname
                           (cadFileName (fields_of parsedManifest)) fs ;;
      match resultDir with
      | AllocationError err => Normal (Some (Next err))
      | Directory _ =>
          sqLiteUrnData <- getDerivativeDownloadUrn urn
                             (sqLiteUrn (fields_of parsedManifest)) ;;
          propertiesUrnData <- getDerivativeDownloadUrn urn
                                 (propertiesUrn (fields_of parsedManifest)) ;;
          Normal None
      end
  end.

(** [GET /api/models/:urn/properties] *)
Definition properties_route (urn : string) (fs : file_system) : option reply :=
  match properties_try urn fs with
  | Normal r => r
  | Throw err => Some (Next err)
  end.

End PropertiesRoute.

(** ** services/apsApisWrapper.js: buckets, listing and upload *)

(** What the [catch] blocks of the wrapper do with a rejection: on a 404 the
    recovery [on404], otherwise the rejection is thrown again; an error
    without a [response] makes [err.response.status] throw. *)
Definition unless_404 {A : Type} (err : js_error) (on404 : completion A) : completion A :=
  match err with
  | Rejection (Some status) => if Z.eqb status 404 then on404 else Throw err
  | _ => Throw (TypeError "Cannot read properties of undefined (reading 'status')")
  end.

(** The options of a page request: [{ limit: 64 }], with [startAt] from the
    second page on. *)
Definition page_options (startAt : option value) : value :=
  VObject (("limit", VNumber "64") ::
           match startAt with
           | Some v => [("startAt", v)]
           | None => []
           end).

(** [a.concat(x)]: an array appends, a string concatenates the text of [x],
    nothing else has the method. *)
Definition method_concat (a x : value) : completion value :=
  match a with
  | VUndefined | VNull =>
      Throw (TypeError "Cannot read properties of undefined (reading 'concat')")
  | VArray l => Normal (VArray (array_concat l x))
  | VString s => sx <- to_string x ;; Normal (VString (s ++ sx))
  | _ => Throw (TypeError "concat is not a function")
  end.

(** [v.length] is read for the log line; it throws on [undefined] and
    [null]. *)
Definition read_length (v : value) : completion unit :=
  match v with
  | VUndefined | VNull =>
      Throw (TypeError "Cannot read properties of undefined (reading 'length')")
  | _ => Normal tt
  end.

(** [v[0]] *)
Definition first_element (v : value) : completion value :=
  match v with
  | VUndefined | VNull =>
      Throw (TypeError "Cannot read properties of undefined (reading '0')")
  | VArray (x :: _) => Normal x
  | VString (String c _) => Normal (VString (String c ""))
  | VObject props => get v "0"
  | _ => Normal VUndefined
  end.

(** How [uploadObject] ends: it returns [results[0].completed], or throws
    that same value when the first result has an error, or another error
    was thrown on the way. *)
Inductive upload_outcome : Type :=
| Uploaded (completed : value)
| UploadFailed (completed : value)
| UploadThrew (e : js_error).

Section Bucket.

(** The bucket of the configuration, the OSS API and the two library calls
    the wrapper makes: [new URL(next).searchParams.get('startAt')] and
    [fs.promises.readFile]. *)
Variable APS_BUCKET : string.
Variable aps_getBucketDetails : string -> completion value.
Variable aps_createBucket : value -> completion value.
Variable aps_getObjects : value -> completion value.
Variable URL_startAt : value -> completion value.
Variable fs_readFile : value -> completion value.
Variable aps_uploadResources : value -> completion value.

Definition bucketExists (bucketKey : string) : completion bool :=
  try_catch (_ <- aps_getBucketDetails bucketKey ;; Normal true)
            (fun err => unless_404 err (Normal false)).

Definition ensureBucketExists (bucketKey : string) : completion unit :=
  try_catch (_ <- aps_getBucketDetails bucketKey ;; Normal tt)
            (fun err => unless_404 err (
               _ <- aps_createBucket
                      (VObject [("bucketKey", VString bucketKey);
                                ("policyKey", VString "temporary")]) ;;
               Normal tt)).

(** The [while] loop of [listObjects], run for at most [fuel] more pages;
    [None] when the pages are not exhausted by then. *)
Fixpoint listObjects_loop (fuel : nat) (resp objects : value) : completion (option value) :=
  body <- get resp "body" ;;
  next <- get body "next" ;;
  if truthy next then
    match fuel with
    | O => Normal None
    | S fuel' =>
        startAt <- URL_startAt next ;;
        resp' <- aps_getObjects (page_options (Some startAt)) ;;
        body' <- get resp' "body" ;;
        items <- get body' "items" ;;
        objects' <- method_concat objects items ;;
        listObjects_loop fuel' resp' objects'
    end
  else
    _ <- read_length objects ;;
    Normal (Some objects).

Definition listObjects (fuel : nat) : completion (option value) :=
  _ <- ensureBucketExists APS_BUCKET ;;
  resp <- aps_getObjects (page_options None) ;;
  body <- get resp "body" ;;
  objects <- get body "items" ;;
  listObjects_loop fuel resp objects.

Definition uploadObject (objectName filePath : value) : upload_outcome :=
  match
    (_ <- ensureBucketExists APS_BUCKET ;;
     buffer <- fs_readFile filePath ;;
     results <- aps_uploadResources
                  (VArray [VObject [("objectKey", objectName); ("data", buffer)]]) ;;
     first <- first_element results ;;
     error <- get first "error" ;;
     first' <- first_element results ;;
     completed <- get first' "completed" ;;
     Normal (truthy error, completed))
  with
  | Normal (true, completed) => UploadFailed completed
  | Normal (false, completed) => Uploaded completed
  | Throw e => UploadThrew e
  end.

End Bucket.

(** The pages the service holds for a listing that starts with the options
    [opts]: each answers with its items and a link to the next one, the
    last with a falsy link. *)
Fixpoint serves_pages (aps_getObjects URL_startAt : value -> completion value)
    (opts : value) (pages : list (list value * value)) : Prop :=
  match pages with
  | [] => False
  | (items, next) :: rest =>
      (exists resp body,
         aps_getObjects opts = Normal resp /\
         get resp "body" = Normal body /\
         get body "items" = Normal (VArray items) /\
         get body "next" = Normal next) /\
      match rest with
      | [] => truthy next = false
      | _ =>
          truthy next = true /\
          exists startAt,
            URL_startAt next = Normal startAt /\
            serves_pages aps_getObjects URL_startAt (page_options (Some startAt)) rest
      end
  end.

(** ** routes/models.js: the listing route and the upload route *)

Section Routes.

(** [Buffer.from(v)] for an array or an object, which the library reads in
    ways of its own. *)
Variable Buffer_from_other : value -> completion (list ascii).
Variable aps_translate : value -> completion value.

(** [urnify(v)]: [Buffer.from] takes a string, and throws on any other
    primitive. *)
Definition urnify_value (v : value) : completion value :=
  match v with
  | VString id => Normal (VString (urnify (js_string_of id)))
  | VArray _ | VObject _ =>
      bytes <- Buffer_from_other v ;;
      Normal (VString (string_of_list_ascii (strip_padding (base64 bytes))))
  | _ => Throw (TypeError "The first argument must be of type string")
  end.

(** The callback of [objects.map]. *)
Definition listed_model (o : value) : completion value :=
  name <- get o "objectKey" ;;
  objectId <- get o "objectId" ;;
  urn <- urnify_value objectId ;;
  Normal (VObject [("name", name); ("urn", urn)]).

Fixpoint map_values (f : value -> completion value) (l : list value)
    : completion (list value) :=
  match l with
  | [] => Normal []
  | x :: rest => y <- f x ;; ys <- map_values f rest ;; Normal (y :: ys)
  end.

(** [objects.map(f)]: only an array has the method. *)
Definition method_map (objects : value) (f : value -> completion value)
    : completion value :=
  match objects with
  | VUndefined | VNull =>
      Throw (TypeError "Cannot read properties of undefined (reading 'map')")
  | VArray l => ys <- map_values f l ;; Normal (VArray ys)
  | _ => Throw (TypeError "map is not a function")
  end.

(** [GET /api/models], once [listObjects] has settled with [listed]. *)
Definition models_route_of (listed : completion value) : reply :=
  match (objects <- listed ;; models <- method_map objects listed_model ;;
         Normal (Json models)) with
  | Normal r => r
  | Throw err => Next err
  end.

(** What the upload handler does: an answer through [res.json] or [next],
    [next] with the value [uploadObject] threw, the status 400 with a
    message, or a throw outside its [try] block. *)
Inductive post_outcome : Type :=
| Replied (r : reply)
| NextValue (v : value)
| BadRequest (message : string)
| Unhandled (e : js_error).

Definition missing_field_message : string :=
  "The required field (" ++ String "034"%char "model-file" ++ String "034"%char ") is missing.".

(** [POST /api/models], with [uploadObject] as the wrapper gives it. *)
Definition post_route (uploadObject : value -> value -> upload_outcome) (req : value)
    : post_outcome :=
  match (files <- get req "files" ;; get files "model-file") with
  | Throw e => Unhandled e
  | Normal file =>
      if negb (truthy file) then BadRequest missing_field_message
      else
        match (name <- get file "name" ;; path <- get file "path" ;;
               Normal (uploadObject name path)) with
        | Throw e => Replied (Next e)
        | Normal (UploadThrew e) => Replied (Next e)
        | Normal (UploadFailed v) => NextValue v
        | Normal (Uploaded obj) =>
            match
              (objectId <- get obj "objectId" ;;
               urn <- urnify_value objectId ;;
               fields <- get req "fields" ;;
               entrypoint <- get fields "model-zip-entrypoint" ;;
               _ <- translateObject aps_translate urn entrypoint ;;
               objectKey <- get obj "objectKey" ;;
               objectId' <- get obj "objectId" ;;
               urn' <- urnify_value objectId' ;;
               Normal (Json (VObject [("name", objectKey); ("urn", urn')])))
            with
            | Normal r => Replied r
            | Throw e => Replied (Next e)
            end
        end
  end.

End Routes.

(** An object of the bucket, as the OSS API lists it, and its value. *)
Record StoredObject : Type := mkStoredObject {
  objectKey : string;
  objectId : string
}.

Definition value_of_object (o : StoredObject) : value :=
  VObject [("objectKey", VString (objectKey o)); ("objectId", VString (objectId o))].

Definition model_of_object (o : StoredObject) : value :=
  VObject [("name", VString (objectKey o));
           ("urn", VString (urnify (js_string_of (objectId o))))].

(** A service that lists three objects on two pages, and a job whose
    manifest is [in_progress_node] alone. *)
Definition first_page : value :=
  VObject [("body", VObject [("items", VArray [VString "a"; VString "b"]);
                             ("next", VString "https://oss/objects?startAt=c")])].

Definition second_page : value :=
  VObject [("body", VObject [("items", VArray [VString "c"])])].

Definition two_page_service (opts : value) : completion value :=
  match opts with
  | VObject [_] => Normal first_page
  | _ => Normal second_page
  end.

Definition download_response : value :=
  VObject [("body", VObject [("url", VString "https://cdn/signed")]);
           ("headers", VObject [("set-cookie",
                                 VArray [VString "k1=v1"; VString "k2=v2"])])].

Definition upload_request : value :=
  VObject [("files", VObject [("model-file",
                               VObject [("name", VString "house.rvt");
                                        ("path", VString "/tmp/upload_1")])]);
           ("fields", VObject [])].

(** * Properties *)

Local Open Scope list_scope.

(** ** The manifest parser never throws *)

Lemma bind_throws_only_errors {A B : Type} (c : completion A) (k : A -> completion B) :
  throws_only_errors c -> (forall a, throws_only_errors (k a)) ->
  throws_only_errors (bind c k).
Proof.
  destruct c as [a | e]; simpl; intros Hc Hk; [apply Hk | exact Hc].
Qed.

Lemma get_throws_only_errors (v : value) (f : string) :
  throws_only_errors (get v f).
Proof.
  destruct v; simpl; trivial.
  destruct (lookup f props); simpl; trivial.
Qed.

Lemma iterate_throws_only_errors (v : value) : throws_only_errors (iterate v).
Proof. destruct v; simpl; trivial. Qed.

Lemma optional_includes_throws_only_errors (v : value) (lit : string) :
  throws_only_errors (optional_includes v lit).
Proof. destruct v; simpl; trivial. Qed.

Lemma to_string_throws_only_errors : forall v, throws_only_errors (to_string v).
Proof.
  fix IH 1.
  intros [ | | [|] | r | s | l | props]; simpl; trivial.
  - revert l. fix IHl 1. intros [|x rest]; simpl; trivial.
    apply bind_throws_only_errors.
    + generalize (IH x). destruct x; intros Hx; first [exact I | exact Hx].
    + intros sx. generalize (IHl rest).
      destruct rest as [|y rest']; intros Hrest; [exact I | ].
      apply bind_throws_only_errors; [exact Hrest | intros srest; exact I].
  - destruct (has_own "toString" props); simpl; trivial.
Qed.

Lemma loose_eq_throws_only_errors (v : value) (lit : string) :
  throws_only_errors (loose_eq v lit).
Proof.
  destruct v; simpl; trivial;
    (apply bind_throws_only_errors;
     [apply (to_string_throws_only_errors (VArray _))
        || apply (to_string_throws_only_errors (VObject _))
     | simpl; trivial]).
Qed.

Lemma js_and_throws_only_errors (a : value) (b : completion value) :
  throws_only_errors b -> throws_only_errors (js_and a b).
Proof. unfold js_and. destruct (truthy a); simpl; trivial. Qed.

Lemma derivativeIsOk_throws_only_errors (d : value) :
  throws_only_errors (derivativeIsOk d).
Proof.
  unfold derivativeIsOk.
  repeat first
    [ apply bind_throws_only_errors; [ | intros ? ]
    | apply js_and_throws_only_errors
    | apply get_throws_only_errors
    | apply optional_includes_throws_only_errors
    | apply loose_eq_throws_only_errors ].
Qed.

Lemma visit_child_throws_only_errors (child : value) (s : summary) :
  throws_only_errors (visit_child child s).
Proof.
  unfold visit_child.
  repeat first
    [ apply bind_throws_only_errors; [ | intros ? ]
    | apply get_throws_only_errors
    | apply loose_eq_throws_only_errors
    | match goal with |- throws_only_errors (if ?b then _ else _) => destruct b end
    | exact I ].
Qed.

Lemma for_each_throws_only_errors {S : Type} (body : value -> S -> completion S) :
  (forall x s, throws_only_errors (body x s)) ->
  forall l s, throws_only_errors (for_each body l s).
Proof.
  intros Hbody l. induction l as [|x rest IH]; intros s; simpl; trivial.
  apply bind_throws_only_errors; [apply Hbody | intros s'; apply IH].
Qed.

Lemma for_of_throws_only_errors {S : Type} (body : value -> S -> completion S) :
  (forall x s, throws_only_errors (body x s)) ->
  forall v s, throws_only_errors (for_of v body s).
Proof.
  intros Hbody v s. unfold for_of.
  apply bind_throws_only_errors; [apply iterate_throws_only_errors | ].
  intros l. apply for_each_throws_only_errors, Hbody.
Qed.

Lemma visit_derivative_throws_only_errors (d : value) (s : summary) :
  throws_only_errors (visit_derivative d s).
Proof.
  unfold visit_derivative.
  apply bind_throws_only_errors; [apply derivativeIsOk_throws_only_errors | ].
  intros ok. destruct (negb (truthy ok)); simpl; trivial.
  apply bind_throws_only_errors; [apply get_throws_only_errors | intros nm].
  apply bind_throws_only_errors; [apply get_throws_only_errors | intros ch].
  apply for_of_throws_only_errors, visit_child_throws_only_errors.
Qed.

Lemma parseManifest_try_throws_only_errors (manifest : value) :
  throws_only_errors (parseManifest_try manifest).
Proof.
  unfold parseManifest_try.
  destruct (negb (truthy manifest)); simpl; trivial.
  apply bind_throws_only_errors; [apply get_throws_only_errors | intros ds].
  destruct (negb (truthy ds)); simpl; trivial.
  apply bind_throws_only_errors; [ | intros s; exact I ].
  apply for_of_throws_only_errors, visit_derivative_throws_only_errors.
Qed.

(** C9: [parseManifest] is total for its caller.  Whatever value it is given,
    also one whose [derivatives] cannot be iterated or whose nodes are
    malformed, it returns normally, and what it returns is either the summary
    object or a value for which [instanceof Error] holds, so the properties
    route can branch on that test. *)
Theorem parseManifest_total :
  forall manifest : value,
    exists r : parsed,
      parseManifest manifest = Normal r /\
      match r with
      | Summary _ => True
      | Failure e => instanceof_Error e = true
      end.
Proof.
  intros manifest. unfold parseManifest.
  pose proof (parseManifest_try_throws_only_errors manifest) as H.
  destruct (parseManifest_try manifest) as [r | e] eqn:E; simpl in *.
  - exists r. split; [reflexivity | ].
    destruct r as [s | err]; [exact I | ].
    (* an error returned by the [try] block itself is built by [Error] *)
    unfold parseManifest_try in E.
    destruct (negb (truthy manifest)); [inversion E; reflexivity | ].
    destruct (get manifest "derivatives") as [ds | e']; simpl in E; [ | discriminate ].
    destruct (negb (truthy ds)); [inversion E; reflexivity | ].
    destruct (for_of ds visit_derivative initial_summary); simpl in E; discriminate.
  - exists (Failure e). split; [reflexivity | exact H].
Qed.

(** ** The manifest parser on well-formed manifests *)

Lemma get_child_role (c : DerivativeChild) :
  get (value_of_child c) "role" = Normal (read (child_role c)).
Proof. destruct c as [[r|] [t|] [u|] [m|]]; reflexivity. Qed.

Lemma get_child_urn (c : DerivativeChild) :
  get (value_of_child c) "urn" = Normal (read (child_urn c)).
Proof. destruct c as [[r|] [t|] [u|] [m|]]; reflexivity. Qed.

Lemma get_derivative_outputType (d : Derivative) :
  get (value_of_derivative d) "outputType" = Normal (read (outputType d)).
Proof. destruct d as [[o|] [p|] [s|] [n|] [m|] [c|]]; reflexivity. Qed.

Lemma get_derivative_progress (d : Derivative) :
  get (value_of_derivative d) "progress" = Normal (read (progress d)).
Proof. destruct d as [[o|] [p|] [s|] [n|] [m|] [c|]]; reflexivity. Qed.

Lemma get_derivative_status (d : Derivative) :
  get (value_of_derivative d) "status" = Normal (read (status d)).
Proof. destruct d as [[o|] [p|] [s|] [n|] [m|] [c|]]; reflexivity. Qed.

Lemma get_derivative_name (d : Derivative) :
  get (value_of_derivative d) "name" = Normal (read (name d)).
Proof. destruct d as [[o|] [p|] [s|] [n|] [m|] [c|]]; reflexivity. Qed.

Lemma get_derivative_children (d : Derivative) :
  get (value_of_derivative d) "children" =
  Normal (match children d with
          | Some cs => VArray (map value_of_child cs)
          | None => VUndefined
          end).
Proof. destruct d as [[o|] [p|] [s|] [n|] [m|] [c|]]; reflexivity. Qed.

Lemma get_manifest_derivatives (m : Manifest) :
  get (value_of_manifest m) "derivatives" =
  Normal (match derivatives m with
          | Some ds => VArray (map value_of_derivative ds)
          | None => VUndefined
          end).
Proof. destruct m as [[s|] [p|] [d|]]; reflexivity. Qed.

Lemma loose_eq_read (o : option string) (lit : string) :
  loose_eq (read o) lit = Normal (is_literal lit o).
Proof. destruct o; reflexivity. Qed.

Lemma visit_child_well_formed (c : DerivativeChild) (s : summary) :
  visit_child (value_of_child c) s = Normal (child_step s c).
Proof.
  unfold visit_child, child_step, role_is.
  rewrite get_child_role, get_child_urn. cbn [bind].
  rewrite !loose_eq_read. cbn [bind]. unfold is_literal.
  destruct (child_role c) as [r|]; [ | reflexivity ].
  destruct (String.eqb r role_PropertyDatabase), (String.eqb r role_ModelData);
    reflexivity.
Qed.

Lemma derivativeIsOk_well_formed (d : Derivative) :
  exists v, derivativeIsOk (value_of_derivative d) = Normal v /\
            truthy v = derivative_ok d.
Proof.
  unfold derivativeIsOk, derivative_ok.
  rewrite get_derivative_outputType, get_derivative_progress,
    get_derivative_status, get_derivative_children.
  cbn [bind]. rewrite !loose_eq_read.
  destruct (outputType d) as [o|]; cbn [read optional_includes bind js_and truthy];
    [ | eexists; split; reflexivity ].
  destruct (str_includes o "svf"); cbn [andb];
    [ | destruct (children d); eexists; split; reflexivity ].
  destruct (is_literal "complete" (progress d)); cbn [js_and truthy bind andb];
    [ | destruct (children d); eexists; split; reflexivity ].
  destruct (is_literal "success" (status d)); cbn [js_and truthy bind andb];
    [ | destruct (children d); eexists; split; reflexivity ].
  destruct (children d); eexists; split; reflexivity.
Qed.

Lemma passes_filter_ok (d : Derivative) :
  passes_filter d <-> derivative_ok d = true.
Proof.
  destruct (derivativeIsOk_well_formed d) as (v & Hv & Ht).
  unfold passes_filter. split.
  - intros (v' & Hv' & Ht'). rewrite Hv in Hv'. inversion Hv'; subst. congruence.
  - intros Hok. exists v. split; [exact Hv | congruence].
Qed.

Lemma skipped_not_ok (d : Derivative) :
  skipped d <-> derivative_ok d = false.
Proof.
  destruct (derivativeIsOk_well_formed d) as (v & Hv & Ht).
  unfold skipped. split.
  - intros (v' & Hv' & Ht'). rewrite Hv in Hv'. inversion Hv'; subst. congruence.
  - intros Hok. exists v. split; [exact Hv | congruence].
Qed.

Lemma for_each_children (cs : list DerivativeChild) (s : summary) :
  for_each visit_child (map value_of_child cs) s = Normal (fold_left child_step cs s).
Proof.
  revert s. induction cs as [|c cs IH]; intros s; simpl; [reflexivity | ].
  rewrite visit_child_well_formed. simpl. apply IH.
Qed.

Lemma visit_derivative_well_formed (d : Derivative) (s : summary) :
  visit_derivative (value_of_derivative d) s = Normal (derivative_step s d).
Proof.
  unfold visit_derivative, derivative_step.
  destruct (derivativeIsOk_well_formed d) as (v & Hv & Ht).
  rewrite Hv. cbn [bind]. rewrite Ht.
  destruct (derivative_ok d) eqn:Hok; cbn [negb]; [ | reflexivity ].
  rewrite get_derivative_name, get_derivative_children. cbn [bind].
  unfold children_of. unfold derivative_ok in Hok.
  destruct (children d) as [cs|].
  - unfold for_of. cbn [iterate bind]. apply for_each_children.
  - destruct (outputType d); discriminate.
Qed.

Lemma for_each_derivatives (ds : list Derivative) (s : summary) :
  for_each visit_derivative (map value_of_derivative ds) s =
  Normal (fold_left derivative_step ds s).
Proof.
  revert s. induction ds as [|d ds IH]; intros s; simpl; [reflexivity | ].
  rewrite visit_derivative_well_formed. simpl. apply IH.
Qed.

(** On a well-formed manifest the parser fails only when [derivatives] is
    absent, and otherwise returns what the two loops leave. *)
Lemma parseManifest_well_formed (m : Manifest) :
  parseManifest (value_of_manifest m) =
  Normal (match derivatives m with
          | Some ds => Summary (fold_left derivative_step ds initial_summary)
          | None => Failure (Error "manifest has no derivatives")
          end).
Proof.
  unfold parseManifest, parseManifest_try.
  change (truthy (value_of_manifest m)) with true. cbn [negb].
  rewrite get_manifest_derivatives. cbn [bind].
  destruct (derivatives m) as [ds|]; cbn [truthy negb]; [ | reflexivity ].
  unfold for_of. cbn [iterate bind].
  rewrite for_each_derivatives. reflexivity.
Qed.

Lemma has_role_role_is (tag : string) (c : DerivativeChild) :
  has_role tag c <-> role_is tag c = true.
Proof.
  unfold has_role, role_is. destruct (child_role c) as [r|].
  - rewrite String.eqb_eq. split; congruence.
  - split; discriminate.
Qed.

Lemma not_has_role_role_is (tag : string) (c : DerivativeChild) :
  ~ has_role tag c -> role_is tag c = false.
Proof.
  intros H. destruct (role_is tag c) eqn:E; [ | reflexivity ].
  exfalso. apply H, has_role_role_is, E.
Qed.

Lemma child_step_cadFileName (s : summary) (c : DerivativeChild) :
  cadFileName (child_step s c) = cadFileName s.
Proof.
  unfold child_step.
  destruct (role_is role_PropertyDatabase c), (role_is role_ModelData c); reflexivity.
Qed.

Lemma child_step_sqLiteUrn (s : summary) (c : DerivativeChild) :
  sqLiteUrn (child_step s c) =
  if role_is role_PropertyDatabase c then read (child_urn c) else sqLiteUrn s.
Proof.
  unfold child_step.
  destruct (role_is role_PropertyDatabase c), (role_is role_ModelData c); reflexivity.
Qed.

Lemma child_step_propertiesUrn (s : summary) (c : DerivativeChild) :
  propertiesUrn (child_step s c) =
  if role_is role_ModelData c then read (child_urn c) else propertiesUrn s.
Proof.
  unfold child_step.
  destruct (role_is role_PropertyDatabase c), (role_is role_ModelData c); reflexivity.
Qed.

Lemma children_cadFileName (cs : list DerivativeChild) (s : summary) :
  cadFileName (fold_left child_step cs s) = cadFileName s.
Proof.
  revert s. induction cs as [|c cs IH]; intros s; simpl; [reflexivity | ].
  rewrite IH. apply child_step_cadFileName.
Qed.

Lemma children_keep_sqLiteUrn (cs : list DerivativeChild) (s : summary) :
  (forall c, In c cs -> ~ has_role role_PropertyDatabase c) ->
  sqLiteUrn (fold_left child_step cs s) = sqLiteUrn s.
Proof.
  revert s. induction cs as [|c cs IH]; intros s H; simpl; [reflexivity | ].
  rewrite IH by (intros c' Hc'; apply H; right; exact Hc').
  rewrite child_step_sqLiteUrn, not_has_role_role_is; [reflexivity | ].
  apply H. left. reflexivity.
Qed.

Lemma children_keep_propertiesUrn (cs : list DerivativeChild) (s : summary) :
  (forall c, In c cs -> ~ has_role role_ModelData c) ->
  propertiesUrn (fold_left child_step cs s) = propertiesUrn s.
Proof.
  revert s. induction cs as [|c cs IH]; intros s H; simpl; [reflexivity | ].
  rewrite IH by (intros c' Hc'; apply H; right; exact Hc').
  rewrite child_step_propertiesUrn, not_has_role_role_is; [reflexivity | ].
  apply H. left. reflexivity.
Qed.

Lemma skipped_derivatives (post : list Derivative) (s : summary) :
  Forall skipped post -> fold_left derivative_step post s = s.
Proof.
  intros H. revert s. induction H as [|d post Hd _ IH]; intros s; simpl; [reflexivity | ].
  unfold derivative_step at 2.
  apply skipped_not_ok in Hd. rewrite Hd. apply IH.
Qed.

(** The summary after the last derivative that passes the filter. *)
Lemma last_passing_derivative (pre post : list Derivative) (d : Derivative) (s : summary) :
  passes_filter d -> Forall skipped post ->
  fold_left derivative_step (pre ++ d :: post) s =
  let before := fold_left derivative_step pre s in
  fold_left child_step (children_of d)
    (mkSummary (read (name d)) (sqLiteUrn before) (propertiesUrn before)).
Proof.
  intros Hd Hpost. rewrite fold_left_app. simpl.
  rewrite skipped_derivatives by exact Hpost.
  unfold derivative_step at 1.
  apply passes_filter_ok in Hd. rewrite Hd. reflexivity.
Qed.

(** C10: [parseManifest] never resets a field between derivative nodes.
    Let [d] be the last node that passes the filter, after the nodes [pre].
    Then [cadFileName] is the name of [d], while [sqLiteUrn] (respectively
    [propertiesUrn]) is still what parsing the nodes [pre] alone leaves in
    it when no child of [d] carries the property-database (respectively
    model-data) role: the three fields can come from different nodes. *)
Theorem parseManifest_never_resets :
  forall (m : Manifest) (pre post : list Derivative) (d : Derivative),
    derivatives m = Some (pre ++ d :: post) ->
    passes_filter d ->
    Forall skipped post ->
    exists before s : summary,
      parseManifest (value_of_manifest (with_derivatives m pre)) = Normal (Summary before) /\
      parseManifest (value_of_manifest m) = Normal (Summary s) /\
      cadFileName s = read (name d) /\
      ((forall c, In c (children_of d) -> ~ has_role role_PropertyDatabase c) ->
       sqLiteUrn s = sqLiteUrn before) /\
      ((forall c, In c (children_of d) -> ~ has_role role_ModelData c) ->
       propertiesUrn s = propertiesUrn before).
Proof.
  intros m pre post d Hm Hd Hpost.
  exists (fold_left derivative_step pre initial_summary).
  eexists. split; [ | split ].
  - rewrite parseManifest_well_formed. reflexivity.
  - rewrite parseManifest_well_formed, Hm.
    rewrite last_passing_derivative by assumption. reflexivity.
  - cbv zeta. split; [ | split ].
    + rewrite children_cadFileName. reflexivity.
    + intros H. rewrite children_keep_sqLiteUrn by exact H. reflexivity.
    + intros H. rewrite children_keep_propertiesUrn by exact H. reflexivity.
Qed.

Lemma parseManifest_never_resets_witness :
  derivatives three_node_manifest = Some ([database_node; data_node] ++ bare_node :: []) /\
  passes_filter bare_node /\
  Forall skipped [] /\
  exists before s : summary,
    parseManifest (value_of_manifest (with_derivatives three_node_manifest
                                        [database_node; data_node])) =
      Normal (Summary before) /\
    parseManifest (value_of_manifest three_node_manifest) = Normal (Summary s) /\
    cadFileName s = read (name bare_node) /\
    ((forall c, In c (children_of bare_node) -> ~ has_role role_PropertyDatabase c) ->
     sqLiteUrn s = sqLiteUrn before) /\
    ((forall c, In c (children_of bare_node) -> ~ has_role role_ModelData c) ->
     propertiesUrn s = propertiesUrn before).
Proof.
  assert (Hm : derivatives three_node_manifest =
               Some ([database_node; data_node] ++ bare_node :: [])) by reflexivity.
  assert (Hd : passes_filter bare_node) by (eexists; split; reflexivity).
  assert (Hpost : Forall skipped []) by constructor.
  split; [exact Hm | split; [exact Hd | split; [exact Hpost | ]]].
  exact (parseManifest_never_resets three_node_manifest
           [database_node; data_node] [] bare_node Hm Hd Hpost).
Defined.

(** The summary of [three_node_manifest] takes its file name from the third
    node, its database urn from the first and its model-data urn from the
    second. *)
Example parseManifest_three_nodes :
  parseManifest (value_of_manifest three_node_manifest) =
  Normal (Summary (mkSummary (VString "c.rvt") (VString "U1") (VString "U2"))).
Proof. reflexivity. Qed.

(** ** The type of a child is never read *)

(** C2, as the specification states it, fails: the only child of the only
    derivative of [geometry_manifest] has the property-database role and the
    type [geometry], not [resource]; the derivative passes the filter, and the
    child's urn is written into [sqLiteUrn]. *)
Lemma parseManifest_captures_geometry_child :
  has_role role_PropertyDatabase geometry_database /\
  child_type geometry_database <> Some "resource"%string /\
  passes_filter (finished "house.rvt" [geometry_database]) /\
  parseManifest (value_of_manifest geometry_manifest) =
  Normal (Summary (mkSummary (VString "house.rvt")
                     (read (child_urn geometry_database)) (VString ""))).
Proof.
  split; [reflexivity | split; [discriminate | split]].
  - eexists. split; reflexivity.
  - reflexivity.
Qed.

(** C2, amended: a child is captured by its role alone.  Let [d] be the last
    derivative that passes the filter and [c] a child of [d] with the role
    [tag], whatever its type, and no later child of [d] with that role.  Then
    the urn of [c] is [sqLiteUrn] when [tag] is the property-database role and
    [propertiesUrn] when it is the model-data role. *)
Theorem parseManifest_captures_by_role_alone :
  forall (m : Manifest) (pre post : list Derivative) (d : Derivative)
         (cs1 cs2 : list DerivativeChild) (tag : string)
         (type urn : option string) (msgs : option (list string)),
    derivatives m = Some (pre ++ d :: post) ->
    passes_filter d ->
    Forall skipped post ->
    children d = Some (cs1 ++ mkChild (Some tag) type urn msgs :: cs2) ->
    (forall c', In c' cs2 -> ~ has_role tag c') ->
    exists s : summary,
      parseManifest (value_of_manifest m) = Normal (Summary s) /\
      (tag = role_PropertyDatabase -> sqLiteUrn s = read urn) /\
      (tag = role_ModelData -> propertiesUrn s = read urn).
Proof.
  intros m pre post d cs1 cs2 tag type urn msgs Hm Hd Hpost Hcs Hlater.
  eexists. split.
  - rewrite parseManifest_well_formed, Hm.
    rewrite last_passing_derivative by assumption. reflexivity.
  - cbv zeta. unfold children_of. rewrite Hcs, fold_left_app. simpl fold_left.
    split; intros ->.
    + rewrite children_keep_sqLiteUrn by exact Hlater.
      rewrite child_step_sqLiteUrn. reflexivity.
    + rewrite children_keep_propertiesUrn by exact Hlater.
      rewrite child_step_propertiesUrn. reflexivity.
Qed.

Lemma parseManifest_captures_by_role_alone_witness :
  derivatives geometry_manifest = Some ([] ++ finished "house.rvt" [geometry_database] :: []) /\
  passes_filter (finished "house.rvt" [geometry_database]) /\
  Forall skipped [] /\
  children (finished "house.rvt" [geometry_database]) =
    Some ([] ++ mkChild (Some role_PropertyDatabase) (Some "geometry"%string)
                   (Some "U1"%string) None :: []) /\
  (forall c', In c' [] -> ~ has_role role_PropertyDatabase c') /\
  exists s : summary,
    parseManifest (value_of_manifest geometry_manifest) = Normal (Summary s) /\
    (role_PropertyDatabase = role_PropertyDatabase -> sqLiteUrn s = read (Some "U1"%string)) /\
    (role_PropertyDatabase = role_ModelData -> propertiesUrn s = read (Some "U1"%string)).
Proof.
  assert (Hm : derivatives geometry_manifest =
               Some ([] ++ finished "house.rvt" [geometry_database] :: [])) by reflexivity.
  assert (Hd : passes_filter (finished "house.rvt" [geometry_database]))
    by (eexists; split; reflexivity).
  assert (Hpost : Forall skipped []) by constructor.
  assert (Hcs : children (finished "house.rvt" [geometry_database]) =
                Some ([] ++ mkChild (Some role_PropertyDatabase) (Some "geometry"%string)
                               (Some "U1"%string) None :: [])) by reflexivity.
  assert (Hlater : forall c', In c' [] -> ~ has_role role_PropertyDatabase c')
    by (intros c' []).
  repeat (split; [assumption | ]).
  exact (parseManifest_captures_by_role_alone geometry_manifest [] []
           (finished "house.rvt" [geometry_database]) [] [] role_PropertyDatabase
           (Some "geometry"%string) (Some "U1"%string) None Hm Hd Hpost Hcs Hlater).
Defined.

(** The summary does not depend on the types of the children at all. *)
Lemma parseManifest_ignores_type (f : DerivativeChild -> option string) (m : Manifest) :
  parseManifest (value_of_manifest (retype_manifest f m)) =
  parseManifest (value_of_manifest m).
Proof.
  rewrite !parseManifest_well_formed.
  destruct m as [st pr [ds|]]; simpl; [ | reflexivity ].
  do 2 f_equal. generalize initial_summary.
  induction ds as [|d ds IH]; intros s; simpl; [reflexivity | ].
  rewrite IH. f_equal.
  unfold derivative_step, derivative_ok, children_of.
  destruct d as [o p st' n ms [cs|]]; simpl; [ | destruct o; reflexivity ].
  destruct o as [o|]; [ | reflexivity ].
  destruct (str_includes o "svf" && is_literal "complete" p && is_literal "success" st');
    [ | reflexivity ].
  generalize (mkSummary (read n) (sqLiteUrn s) (propertiesUrn s)).
  induction cs as [|c cs IHc]; intros s0; simpl; [reflexivity | ].
  rewrite IHc. reflexivity.
Qed.

(** ** The structural errors *)

(** C3, as the specification states it, fails: on a manifest whose
    [derivatives] is the empty array the parser returns the summary with
    three empty strings, not the error. *)
Lemma parseManifest_empty_derivatives :
  parseManifest empty_manifest = Normal (Summary initial_summary) /\
  parseManifest empty_manifest <>
    Normal (Failure (Error "manifest has no derivatives")).
Proof. split; [reflexivity | discriminate]. Qed.

(** C3, amended: an empty [derivatives] array is no error, the parser
    returns the summary with three empty strings; the error
    [manifest has no derivatives] is what it returns when the property is
    absent. *)
Theorem parseManifest_derivatives_empty_or_absent :
  forall props : list (string * value),
    (lookup "derivatives" props = Some (VArray []) ->
     parseManifest (VObject props) = Normal (Summary initial_summary)) /\
    (lookup "derivatives" props = None ->
     parseManifest (VObject props) =
       Normal (Failure (Error "manifest has no derivatives"))).
Proof.
  intros props.
  split; intros H; unfold parseManifest, parseManifest_try; simpl; rewrite H;
    reflexivity.
Qed.

Lemma parseManifest_derivatives_empty_or_absent_witness :
  (lookup "derivatives" [("derivatives"%string, VArray [])] = Some (VArray []) /\
   parseManifest (VObject [("derivatives"%string, VArray [])]) =
     Normal (Summary initial_summary)) /\
  (lookup "derivatives" [("status"%string, VString "success")] = None /\
   parseManifest (VObject [("status"%string, VString "success")]) =
     Normal (Failure (Error "manifest has no derivatives"))).
Proof.
  split; split.
  - reflexivity.
  - exact (proj1 (parseManifest_derivatives_empty_or_absent
                    [("derivatives"%string, VArray [])]) eq_refl).
  - reflexivity.
  - exact (proj2 (parseManifest_derivatives_empty_or_absent
                    [("status"%string, VString "success")]) eq_refl).
Defined.

(** [parseManifest(null)], the manifest of a job the service does not know. *)
Lemma parseManifest_null :
  parseManifest VNull = Normal (Failure (Error "no manifest received")).
Proof. reflexivity. Qed.

(** Malformed manifests: [derivatives] that cannot be iterated, a [null]
    node, an [outputType] without [includes], children that are a number.
    Each is caught and returned as a [TypeError]. *)
Example parseManifest_malformed :
  parseManifest (VObject [("derivatives"%string, VNumber "5")]) =
    Normal (Failure (TypeError "value is not iterable")) /\
  parseManifest (VObject [("derivatives"%string, VArray [VNull])]) =
    Normal (Failure (TypeError
      "Cannot read properties of undefined or null: outputType")) /\
  parseManifest (VObject [("derivatives"%string,
                           VArray [VObject [("outputType"%string, VNumber "7")]])]) =
    Normal (Failure (TypeError "includes is not a function")) /\
  parseManifest (VObject [("derivatives"%string,
                           VArray [VObject [("outputType"%string, VString "svf2");
                                            ("progress"%string, VString "complete");
                                            ("status"%string, VString "success");
                                            ("children"%string, VNumber "3")]])]) =
    Normal (Failure (TypeError "value is not iterable")).
Proof. repeat split. Qed.

(** C1: on the manifest with the single complete [house.rvt] derivative and
    its two resource children, [parseManifest] returns the summary
    [{cadFileName: "house.rvt", sqLiteUrn: "U1", propertiesUrn: "U2"}], and
    not an error. *)
Theorem parseManifest_house :
  parseManifest house_manifest =
  Normal (Summary (mkSummary (VString "house.rvt") (VString "U1") (VString "U2"))).
Proof. reflexivity. Qed.

(** ** The status route *)

(** C7: when the service answers 404 for a job, [getManifest] gives [null]
    and the status route answers [{status: 'n/a'}]; nothing is thrown and
    [next] is not called. *)
Theorem status_route_not_found :
  forall (aps_getManifest : string -> completion value) (urn : string),
    aps_getManifest urn = Throw (Rejection (Some 404%Z)) ->
    getManifest aps_getManifest urn = Normal VNull /\
    status_route aps_getManifest urn = Json (VObject [("status"%string, VString "n/a")]).
Proof.
  intros aps urn H.
  unfold status_route, getManifest, getManifest_of. rewrite H.
  split; reflexivity.
Qed.

Lemma status_route_not_found_witness :
  (fun _ : string => @Throw value (Rejection (Some 404%Z))) "dXJuOmE"%string =
    Throw (Rejection (Some 404%Z)) /\
  getManifest (fun _ => Throw (Rejection (Some 404%Z))) "dXJuOmE" = Normal VNull /\
  status_route (fun _ => Throw (Rejection (Some 404%Z))) "dXJuOmE" =
    Json (VObject [("status"%string, VString "n/a")]).
Proof.
  split; [reflexivity | ].
  exact (status_route_not_found (fun _ => Throw (Rejection (Some 404%Z)))
           "dXJuOmE"%string eq_refl).
Defined.

(** Any other rejection of the service goes to [next]. *)
Lemma status_route_other_rejection
    (aps_getManifest : string -> completion value) (urn : string) (code : Z) :
  aps_getManifest urn = Throw (Rejection (Some code)) ->
  code <> 404%Z ->
  status_route aps_getManifest urn = Next (Rejection (Some code)).
Proof.
  intros H Hcode.
  unfold status_route, getManifest, getManifest_of. rewrite H. simpl.
  destruct (Z.eqb_spec code 404); [contradiction | reflexivity].
Qed.

(** C4 fails on the code: the inner loop calls [messages.concat] and drops
    the array it returns, so the message of the child of [noisy_manifest] is
    missing from the answer, which holds the derivative's own message only. *)
Theorem status_route_drops_child_messages :
  forall urn : string,
    status_route (fun _ => Normal noisy_manifest) urn =
    Json (VObject [("status"%string, VString "success");
                   ("progress"%string, VString "complete");
                   ("messages"%string, VArray [VString "parent"])]).
Proof. intros urn. reflexivity. Qed.

Lemma get_derivative_messages (d : Derivative) :
  get (value_of_derivative d) "messages" =
  Normal (match messages d with
          | Some l => value_of_strings l
          | None => VUndefined
          end).
Proof. destruct d as [[o|] [p|] [s|] [n|] [m|] [c|]]; reflexivity. Qed.

Lemma status_children (cs : list DerivativeChild) (msgs : list value) :
  for_each status_child (map value_of_child cs) msgs = Normal msgs.
Proof.
  induction cs as [|c cs IH]; simpl; [reflexivity | ].
  unfold status_child at 1.
  destruct c as [[r|] [t|] [u|] [m|]]; simpl; exact IH.
Qed.

Lemma status_derivative_well_formed (d : Derivative) (msgs : list value) :
  status_derivative (value_of_derivative d) msgs =
  Normal (msgs ++ map VString (messages_of d)).
Proof.
  unfold status_derivative, messages_of.
  rewrite get_derivative_messages, get_derivative_children. cbn [bind].
  assert (Hconcat :
    array_concat msgs
      (js_or match messages d with
             | Some l => value_of_strings l
             | None => VUndefined
             end (VArray [])) =
    msgs ++ map VString match messages d with Some l => l | None => [] end)
    by (destruct (messages d); reflexivity).
  rewrite Hconcat.
  destruct (children d) as [cs|]; cbn [truthy]; [ | reflexivity ].
  unfold for_of. cbn [iterate bind]. apply status_children.
Qed.

(** On every well-formed manifest the message list of the status route is
    the concatenation of the messages of the top-level derivatives; the
    messages of their children are not in it. *)
Lemma status_messages_well_formed (m : Manifest) (ds : list Derivative) :
  derivatives m = Some ds ->
  status_messages (value_of_manifest m) =
  Normal (map VString (flat_map messages_of ds)).
Proof.
  intros Hm. unfold status_messages.
  rewrite get_manifest_derivatives, Hm. cbn [bind truthy].
  unfold for_of. cbn [iterate bind].
  assert (H : forall msgs,
    for_each status_derivative (map value_of_derivative ds) msgs =
    Normal (msgs ++ map VString (flat_map messages_of ds))).
  { clear Hm. induction ds as [|d ds' IH]; intros msgs; simpl.
    - rewrite app_nil_r. reflexivity.
    - rewrite status_derivative_well_formed. simpl. rewrite IH, map_app, app_assoc.
      reflexivity. }
  apply (H []).
Qed.

(** ** The translation job *)

(** C8: the job [translateObject] sends always asks for the output
    [{formats: [{type: 'svf2', views: ['2d', '3d']}]}], and its input carries
    [compressedUrn: true] and the root file name exactly when [rootFilename]
    is truthy, which for a string means that it is not empty; otherwise the
    input has neither property. *)
Theorem translateObject_job :
  forall (aps_translate : value -> completion value) (urn rootFilename : value),
    translateObject aps_translate urn rootFilename =
      aps_translate (translation_job urn rootFilename) /\
    exists input : list (string * value),
      translation_job urn rootFilename =
        VObject [("input"%string, VObject input);
                 ("output"%string,
                  VObject [("formats"%string,
                            VArray [VObject [("type"%string, VString "svf2");
                                             ("views"%string,
                                              VArray [VString "2d"; VString "3d"])]])])] /\
      lookup "urn" input = Some urn /\
      ((lookup "compressedUrn" input = Some (VBool true) /\
        lookup "rootFilename" input = Some rootFilename) <->
       truthy rootFilename = true) /\
      ((lookup "compressedUrn" input = None /\ lookup "rootFilename" input = None) <->
       truthy rootFilename = false) /\
      (forall s : string, rootFilename = VString s ->
         (truthy rootFilename = true <-> s <> ""%string)).
Proof.
  intros aps urn rootFilename. split; [reflexivity | ].
  unfold translation_job.
  destruct (truthy rootFilename) eqn:Ht; eexists;
    (split; [reflexivity | split; [reflexivity | ]]); simpl.
  - split; [ | split ].
    + split; [reflexivity | intros _; split; reflexivity].
    + split; [intros [H _]; discriminate | discriminate].
    + intros s ->. simpl in Ht. split; [ | reflexivity ].
      intros _ ->. discriminate.
  - split; [ | split ].
    + split; [intros [H _]; discriminate | discriminate].
    + split; [reflexivity | intros _; split; reflexivity].
    + intros s ->. simpl in Ht. split; [discriminate | ].
      intros Hs. destruct s; [contradiction | discriminate].
Qed.

Lemma translateObject_job_witness :
  exists input : list (string * value),
    translation_job (VString "dXJuOmE") (VString "house.rvt") =
      VObject [("input"%string, VObject input);
               ("output"%string,
                VObject [("formats"%string,
                          VArray [VObject [("type"%string, VString "svf2");
                                           ("views"%string,
                                            VArray [VString "2d"; VString "3d"])]])])] /\
    lookup "urn" input = Some (VString "dXJuOmE") /\
    ((lookup "compressedUrn" input = Some (VBool true) /\
      lookup "rootFilename" input = Some (VString "house.rvt")) <->
     truthy (VString "house.rvt") = true) /\
    ((lookup "compressedUrn" input = None /\ lookup "rootFilename" input = None) <->
     truthy (VString "house.rvt") = false) /\
    (forall s : string, VString "house.rvt" = VString s ->
       (truthy (VString "house.rvt") = true <-> s <> ""%string)).
Proof.
  exact (proj2 (translateObject_job (fun _ => Normal VUndefined)
                  (VString "dXJuOmE") (VString "house.rvt"))).
Defined.

(** ** urnify *)

Lemma base64_char_not_pad (s : sextet) : Ascii.eqb (base64_char s) "=" = false.
Proof.
  destruct s as [[[[[a b] c] d] e] f].
  destruct a, b, c, d, e, f; reflexivity.
Qed.



Lemma strip_encode3 (x y z : ascii) (rest : list ascii) :
  strip_padding (encode3 x y z ++ rest) = encode3 x y z ++ strip_padding rest.
Proof.
  destruct x, y, z. unfold encode3, strip_padding. cbn [app filter].
  rewrite !base64_char_not_pad. reflexivity.
Qed.




(** Induction on a list of bytes, three at a time. *)
Lemma bytes_by_three (P : list ascii -> Prop) :
  P [] -> (forall x, P [x]) -> (forall x y, P [x; y]) ->
  (forall x y z rest, P rest -> P (x :: y :: z :: rest)) ->
  forall l, P l.
Proof.
  intros H0 H1 H2 H3. fix IH 1.
  intros [|x [|y [|z rest]]]; [exact H0 | apply H1 | apply H2 | apply H3, IH].
Qed.



(** *** The UTF-8 step *)

Lemma Buffer_from_cons (u : code_unit) (rest : js_string) :
  Buffer_from (u :: rest) =
  if is_high_surrogate u then
    match rest with
    | v :: rest' =>
        if is_low_surrogate v then encode_pair u v ++ Buffer_from rest'
        else replacement ++ Buffer_from rest
    | [] => replacement
    end
  else if is_low_surrogate u then replacement ++ Buffer_from rest
  else encode_unit u ++ Buffer_from rest.
Proof. reflexivity. Qed.




(** Induction on a string, by the unit and by the pair of units. *)
Lemma js_string_ind2 (P : js_string -> Prop) :
  P [] -> (forall u, P [u]) ->
  (forall u v rest, P rest -> P (v :: rest) -> P (u :: v :: rest)) ->
  forall id, P id.
Proof.
  intros H0 H1 H2. fix IH 1. intros [|u tl]; [exact H0 | ].
  generalize (IH tl). destruct tl as [|v rest]; intros Htl; [apply H1 | ].
  apply H2; [ | exact Htl ].
  generalize (IH rest). clear. auto.
Qed.






(** The urns of a few identifiers. *)
Example urnify_examples :
  urnify (js_string_of "Man") = "TWFu"%string /\
  urnify (js_string_of "Ma") = "TWE"%string /\
  urnify (js_string_of "M") = "TQ"%string /\
  urnify (js_string_of "urn:adsk.objects:os.object:bucket/file.rvt") =
    "dXJuOmFkc2sub2JqZWN0czpvcy5vYmplY3Q6YnVja2V0L2ZpbGUucnZ0"%string /\
  urnify grinning_face = "8J+YgA"%string /\
  urnify [("000"%char, "233"%char)] = "w6k"%string /\
  urnify [("032"%char, "172"%char)] = "4oKs"%string.
Proof. repeat split. Qed.



(** ** The result directory *)

(** The routes directory and the file system of the examples. *)
Lemma path_examples :
  path_basename "../../etc/passwd" = "passwd"%string /\
  path_basename ".." = ".."%string /\
  path_basename "a/b//" = "b"%string /\
  path_basename "///" = ""%string /\
  path_join ["/app/routes"; ".."; "results"]%string = "/app/results"%string /\
  path_join ["/app/results"; "passwd"]%string = "/app/results/passwd"%string /\
  path_join ["/app/results"; ".."]%string = "/app"%string /\
  path_join ["a"; "../../b/"; "c/./d/"]%string = "../b/c/d/"%string.
Proof. repeat split. Qed.

(** The empty name is refused before anything is created. *)
Lemma createResultDirectory_empty (__dirname : string) (fs : file_system) :
  createResultDirectory __dirname (VString "") fs =
  Normal (AllocationError (Error "No CAD file name provided."), fs).
Proof. reflexivity. Qed.

(** A name with directories in front is cut down to its last component. *)
Lemma createResultDirectory_passwd :
  createResultDirectory "/app/routes" (VString "../../etc/passwd") app_file_system =
  Normal (Directory "/app/results/passwd",
          "/app/results/passwd"%string :: "/app/results"%string :: app_file_system).
Proof. reflexivity. Qed.

(** C6 fails on the code: [path.basename('..')] is ['..'], and joined to the
    base results directory [/app/results] it gives [/app], the directory
    above it.  That directory exists, so [createResultDirectory] returns it:
    a directory that is not under the base results directory. *)
Theorem createResultDirectory_dotdot :
  baseResultDir "/app/routes" = "/app/results"%string /\
  path_basename ".." = ".."%string /\
  createResultDirectory "/app/routes" (VString "..") app_file_system =
  Normal (Directory "/app", "/app/results"%string :: app_file_system).
Proof. repeat split. Qed.

(** *** Names that stay under the base directory *)

Lemma append_assoc (a b c : string) : ((a ++ b) ++ c = a ++ (b ++ c))%string.
Proof. induction a as [|x a IH]; simpl; [reflexivity | rewrite IH; reflexivity]. Qed.

Lemma list_ascii_of_string_app (a b : string) :
  list_ascii_of_string (a ++ b) = list_ascii_of_string a ++ list_ascii_of_string b.
Proof. induction a as [|x a IH]; simpl; [reflexivity | rewrite IH; reflexivity]. Qed.

Lemma split_slash_not_nil (s : string) : split_slash s <> [].
Proof.
  destruct s as [|c r]; simpl; [discriminate | ].
  destruct (Ascii.eqb c slash); [discriminate | ].
  destruct (split_slash r); discriminate.
Qed.

Lemma split_slash_no_slash (s : string) : no_slash s -> split_slash s = [s].
Proof.
  unfold no_slash. induction s as [|c r IH]; simpl; intros H; [reflexivity | ].
  destruct (Ascii.eqb_spec c slash) as [-> | Hc]; [exfalso; apply H; left; reflexivity | ].
  rewrite IH; [reflexivity | ]. intros Hr. apply H. right. exact Hr.
Qed.

Lemma split_slash_app (a b : string) :
  split_slash (a ++ String slash b) = split_slash a ++ split_slash b.
Proof.
  induction a as [|c r IH]; simpl.
  - reflexivity.
  - rewrite IH. destruct (Ascii.eqb c slash); [reflexivity | ].
    pose proof (split_slash_not_nil r) as Hr.
    destruct (split_slash r) as [|seg segs]; [contradiction | reflexivity].
Qed.

Lemma split_slash_segments (s : string) : Forall no_slash (split_slash s).
Proof.
  induction s as [|c r IH]; simpl.
  - constructor; [intros [] | constructor].
  - destruct (Ascii.eqb_spec c slash) as [-> | Hc].
    + constructor; [intros [] | exact IH].
    + pose proof (split_slash_not_nil r) as Hr.
      destruct (split_slash r) as [|seg segs]; [contradiction | ].
      inversion IH as [|? ? Hseg Hsegs]; subst.
      constructor; [ | exact Hsegs ].
      intros [Heq | Hin]; [apply Hc; exact Heq | exact (Hseg Hin)].
Qed.

Lemma join_slash_snoc (l : list string) (b : string) :
  l <> [] -> join_slash (l ++ [b]) = (join_slash l ++ "/" ++ b)%string.
Proof.
  induction l as [|x r IH]; intros Hl; [contradiction | ].
  destruct r as [|y r'].
  - reflexivity.
  - change (join_slash ((x :: y :: r') ++ [b]))
      with (x ++ "/" ++ join_slash ((y :: r') ++ [b]))%string.
    rewrite IH by discriminate.
    change (join_slash (x :: y :: r')) with (x ++ "/" ++ join_slash (y :: r'))%string.
    rewrite !append_assoc. reflexivity.
Qed.

Lemma split_join_slash (l : list string) :
  l <> [] -> Forall no_slash l -> split_slash (join_slash l) = l.
Proof.
  induction l as [|x r IH]; intros Hl Hno; [contradiction | ].
  inversion Hno as [|? ? Hx Hr]; subst.
  destruct r as [|y r'].
  - apply split_slash_no_slash, Hx.
  - change (join_slash (x :: y :: r'))
      with (x ++ String slash (join_slash (y :: r')))%string.
    rewrite split_slash_app, IH by (discriminate || assumption).
    rewrite split_slash_no_slash by exact Hx. reflexivity.
Qed.

Lemma proper_name_tests (seg : string) :
  proper_name seg ->
  (seg =? "")%string = false /\ (seg =? ".")%string = false /\ (seg =? "..")%string = false.
Proof.
  intros (H1 & H2 & H3). repeat split; apply String.eqb_neq; assumption.
Qed.

Lemma normalize_segments_app (allow : bool) (l1 l2 res : list string) :
  normalize_segments allow (l1 ++ l2) res =
  normalize_segments allow l2 (rev (normalize_segments allow l1 res)).
Proof.
  revert res. induction l1 as [|seg rest IH]; intros res; simpl.
  - rewrite rev_involutive. reflexivity.
  - destruct ((seg =? "")%string || (seg =? ".")%string); [apply IH | ].
    destruct (seg =? "..")%string; [ | apply IH ].
    destruct res as [|last before]; [apply IH | ].
    destruct (last =? "..")%string; apply IH.
Qed.

Lemma normalize_segments_proper (allow : bool) (l res : list string) :
  Forall proper_name l -> normalize_segments allow l res = rev res ++ l.
Proof.
  intros H. revert res. induction H as [|seg rest Hseg _ IH]; intros res; simpl.
  - rewrite app_nil_r. reflexivity.
  - destruct (proper_name_tests seg Hseg) as (-> & -> & ->). simpl.
    rewrite IH. simpl. rewrite <- app_assoc. reflexivity.
Qed.

(** Inside a root, the segments kept are proper names. *)
Lemma normalize_segments_kept (l res : list string) :
  Forall no_slash l ->
  Forall proper_name res -> Forall no_slash res ->
  exists kept, normalize_segments false l res = rev kept /\
               Forall proper_name kept /\ Forall no_slash kept.
Proof.
  intros Hl. revert res. induction Hl as [|seg rest Hseg _ IH]; intros res Hp Hn; simpl.
  - exists res. auto.
  - destruct (String.eqb_spec seg "") as [-> | H1]; simpl; [apply IH; assumption | ].
    destruct (String.eqb_spec seg ".") as [-> | H2]; simpl; [apply IH; assumption | ].
    destruct (String.eqb_spec seg "..") as [-> | H3].
    + destruct res as [|last before]; [apply IH; constructor | ].
      inversion Hp; inversion Hn; subst.
      destruct (last =? "..")%string; apply IH; try assumption; constructor; assumption.
    + apply IH; constructor; try assumption. repeat split; assumption.
Qed.

Lemma ends_with_slash_app (a b : string) :
  b <> ""%string -> no_slash b -> ends_with_slash (a ++ b) = false.
Proof.
  intros Hb Hno. unfold ends_with_slash. rewrite list_ascii_of_string_app, rev_app_distr.
  unfold no_slash in Hno. rewrite in_rev in Hno.
  destruct (rev (list_ascii_of_string b)) as [|c r] eqn:E.
  - exfalso. apply Hb.
    apply (f_equal (@rev ascii)) in E. rewrite rev_involutive in E. simpl in E.
    rewrite <- (string_of_list_ascii_of_string b), E. reflexivity.
  - simpl. destruct (Ascii.eqb_spec c slash) as [-> | Hc]; [ | reflexivity ].
    exfalso. apply Hno. left. reflexivity.
Qed.

Lemma append_not_empty (a : string) (c : ascii) (b : string) :
  ((a ++ String c b) =? "")%string = false.
Proof. destruct a; reflexivity. Qed.

Lemma take_segment_no_slash (cs : list ascii) : ~ In slash (take_segment cs).
Proof.
  induction cs as [|c r IH]; simpl; [intros [] | ].
  destruct (Ascii.eqb_spec c slash) as [-> | Hc]; [intros [] | ].
  intros [Heq | Hin]; [apply Hc; exact Heq | exact (IH Hin)].
Qed.

Lemma path_basename_no_slash (p : string) : no_slash (path_basename p).
Proof.
  unfold no_slash, path_basename. rewrite list_ascii_of_string_of_list_ascii, <- in_rev.
  apply take_segment_no_slash.
Qed.

Lemma path_normalize_absolute (p : string) (kept : list string) (last : string) :
  starts_with_slash p = true -> ends_with_slash p = false ->
  normalize_segments false (split_slash p) [] = kept ++ [last] ->
  last <> ""%string ->
  path_normalize p = String slash (join_slash (kept ++ [last])).
Proof.
  intros Habs Htrail Hsegs Hlast. unfold path_normalize.
  destruct p as [|c r]; [discriminate | ].
  change ((String c r =? "")%string) with false. cbv iota.
  rewrite Habs, Htrail. cbn [negb]. rewrite Hsegs.
  assert (Hq : (join_slash (kept ++ [last]) =? "")%string = false).
  { destruct kept as [|x kept'].
    - simpl. apply String.eqb_neq, Hlast.
    - rewrite join_slash_snoc by discriminate.
      apply append_not_empty. }
  rewrite Hq. reflexivity.
Qed.

(** The base results directory is [/], the proper names that are left of
    [__dirname] once its last one is dropped, and [results]. *)
Lemma baseResultDir_shape (__dirname : string) :
  starts_with_slash __dirname = true ->
  exists kept : list string,
    Forall proper_name kept /\ Forall no_slash kept /\
    baseResultDir __dirname = String slash (join_slash (kept ++ ["results"%string])).
Proof.
  intros Habs.
  destruct (normalize_segments_kept (split_slash __dirname) []
              (split_slash_segments __dirname) (Forall_nil _) (Forall_nil _))
    as (seen & Hseen & Hproper & Hno).
  assert (Hjoin : baseResultDir __dirname =
                  path_normalize (__dirname ++ String slash "../results")).
  { unfold baseResultDir, path_join.
    destruct __dirname as [|c r]; [discriminate | reflexivity]. }
  assert (Hsegs : exists kept, Forall proper_name kept /\ Forall no_slash kept /\
            normalize_segments false
              (split_slash (__dirname ++ String slash "../results")) [] =
            kept ++ ["results"%string]).
  { rewrite split_slash_app.
    change (split_slash "../results") with [".."%string; "results"%string].
    rewrite normalize_segments_app, Hseen, rev_involutive.
    destruct seen as [|last before].
    - exists []. repeat split; constructor.
    - inversion Hproper as [|? ? Hlast Hbefore]; subst.
      inversion Hno as [|? ? Hlast' Hbefore']; subst.
      destruct (proper_name_tests last Hlast) as (_ & _ & Hdots).
      exists (rev before). simpl. rewrite Hdots. simpl.
      repeat split; try reflexivity; apply Forall_rev; assumption. }
  destruct Hsegs as (kept & Hkp & Hkn & Hsegs).
  exists kept. repeat split; try assumption.
  rewrite Hjoin. apply path_normalize_absolute.
  - destruct __dirname; [discriminate | exact Habs].
  - change (String slash "../results") with ("/../" ++ "results")%string.
    rewrite <- append_assoc. apply ends_with_slash_app; [discriminate | ].
    unfold no_slash. simpl. intros H.
    repeat (destruct H as [H | H]; [discriminate | ]). exact H.
  - exact Hsegs.
  - discriminate.
Qed.

Lemma path_join_proper (kept : list string) (last b : string) :
  Forall proper_name (kept ++ [last]) -> Forall no_slash (kept ++ [last]) ->
  proper_name b -> no_slash b ->
  path_join [String slash (join_slash (kept ++ [last])); b] =
  (String slash (join_slash (kept ++ [last])) ++ "/" ++ b)%string.
Proof.
  intros Hp Hn Hb Hbn.
  assert (Hb' : b <> ""%string) by apply Hb.
  unfold path_join. cbn [filter]. change ((String slash _ =? "")%string) with false.
  apply String.eqb_neq in Hb'. rewrite Hb'. cbn [negb].
  apply String.eqb_neq in Hb'.
  change (join_slash [String slash (join_slash (kept ++ [last])); b])
    with (String slash (join_slash (kept ++ [last])) ++ String slash b)%string.
  change ("/" ++ b)%string with (String slash b).
  assert (Hne : kept ++ [last] <> []) by (destruct kept; discriminate).
  rewrite (path_normalize_absolute _ (kept ++ [last]) b).
  - rewrite join_slash_snoc by exact Hne. reflexivity.
  - reflexivity.
  - replace (String slash (join_slash (kept ++ [last])) ++ String slash b)%string
      with ((String slash (join_slash (kept ++ [last])) ++ "/") ++ b)%string
      by (rewrite append_assoc; reflexivity).
    apply ends_with_slash_app; assumption.
  - rewrite split_slash_app. rewrite (split_slash_no_slash b) by exact Hbn.
    change (split_slash (String slash (join_slash (kept ++ [last]))))
      with (""%string :: split_slash (join_slash (kept ++ [last]))).
    rewrite split_join_slash by assumption.
    change (normalize_segments false ((""%string :: kept ++ [last]) ++ [b]) [])
      with (normalize_segments false ((kept ++ [last]) ++ [b]) []).
    apply normalize_segments_proper.
    apply Forall_app. split; [exact Hp | constructor; [exact Hb | constructor]].
  - exact Hb'.
Qed.

(** Where [createResultDirectory] meets the claim of the specification: for
    a name whose last component is a proper name, the directory it returns
    is the one of that name directly under the base results directory. *)
Lemma createResultDirectory_proper_name
    (__dirname cadFileName dir : string) (fs fs' : file_system) :
  starts_with_slash __dirname = true ->
  proper_name (path_basename cadFileName) ->
  createResultDirectory __dirname (VString cadFileName) fs = Normal (Directory dir, fs') ->
  dir = (baseResultDir __dirname ++ "/" ++ path_basename cadFileName)%string.
Proof.
  intros Habs Hname Hrun.
  destruct (baseResultDir_shape __dirname Habs) as (kept & Hkp & Hkn & Hbase).
  assert (Hjoin : path_join [baseResultDir __dirname; path_basename cadFileName] =
                  (baseResultDir __dirname ++ "/" ++ path_basename cadFileName)%string).
  { rewrite Hbase. apply path_join_proper.
    - apply Forall_app. split; [exact Hkp | ].
      constructor; [repeat split; discriminate | constructor].
    - apply Forall_app. split; [exact Hkn | ].
      constructor; [ | constructor ].
      unfold no_slash. simpl. intros H.
      repeat (destruct H as [H | H]; [discriminate | ]). exact H.
    - exact Hname.
    - apply path_basename_no_slash. }
  unfold createResultDirectory in Hrun.
  destruct (negb (truthy (VString cadFileName))); [discriminate | ].
  destruct (createDirectory (baseResultDir __dirname) fs) as [[created fs1] | e];
    [ | discriminate ].
  cbn [bind] in Hrun. destruct created; cbn [negb] in Hrun; [ | discriminate ].
  cbn [bind] in Hrun. rewrite Hjoin in Hrun.
  destruct (createDirectory _ fs1) as [[created fs2] | e]; [ | discriminate ].
  cbn [bind] in Hrun. destruct created; cbn [negb] in Hrun; [ | discriminate ].
  inversion Hrun. reflexivity.
Qed.

(** * Further properties *)

(** ** The errors of the manifest parser *)

Lemma bind_TypeError {A B : Type} (c : completion A) (k : A -> completion B) :
  throws_only_TypeError c -> (forall a, throws_only_TypeError (k a)) ->
  throws_only_TypeError (bind c k).
Proof.
  destruct c as [a | e]; simpl; intros Hc Hk; [apply Hk | exact Hc].
Qed.

Lemma get_TypeError (v : value) (f : string) : throws_only_TypeError (get v f).
Proof.
  destruct v; simpl; trivial.
  destruct (lookup f props); simpl; trivial.
Qed.

Lemma to_string_TypeError : forall v, throws_only_TypeError (to_string v).
Proof.
  fix IH 1.
  intros [ | | [|] | r | s | l | props]; simpl; trivial.
  - revert l. fix IHl 1. intros [|x rest]; simpl; trivial.
    apply bind_TypeError.
    + generalize (IH x). destruct x; intros Hx; first [exact I | exact Hx].
    + intros sx. generalize (IHl rest).
      destruct rest as [|y rest']; intros Hrest; [exact I | ].
      apply bind_TypeError; [exact Hrest | intros srest; exact I].
  - destruct (has_own "toString" props); simpl; trivial.
Qed.

Lemma loose_eq_TypeError (v : value) (lit : string) :
  throws_only_TypeError (loose_eq v lit).
Proof.
  destruct v; simpl; trivial;
    (apply bind_TypeError;
     [apply (to_string_TypeError (VArray _)) || apply (to_string_TypeError (VObject _))
     | simpl; trivial]).
Qed.

(** One step of the proofs below: split a bind, or close a leaf. *)
Ltac type_errors :=
  repeat match goal with
  | |- throws_only_TypeError (Normal _) => exact I
  | |- throws_only_TypeError (Throw (TypeError _)) => exact I
  | |- throws_only_TypeError (bind _ _) => apply bind_TypeError; [ | intros ? ]
  | |- throws_only_TypeError (get _ _) => apply get_TypeError
  | |- throws_only_TypeError (loose_eq _ _) => apply loose_eq_TypeError
  | |- throws_only_TypeError (js_and ?a _) => unfold js_and; destruct (truthy a)
  | |- throws_only_TypeError (optional_includes ?v _) => destruct v; simpl
  | |- throws_only_TypeError (if ?b then _ else _) => destruct b
  | |- True => exact I
  end.

Lemma derivativeIsOk_TypeError (d : value) : throws_only_TypeError (derivativeIsOk d).
Proof. unfold derivativeIsOk. type_errors. Qed.

Lemma visit_child_TypeError (child : value) (s : summary) :
  throws_only_TypeError (visit_child child s).
Proof. unfold visit_child. type_errors. Qed.

Lemma for_of_TypeError {S : Type} (body : value -> S -> completion S) :
  (forall x s, throws_only_TypeError (body x s)) ->
  forall v s, throws_only_TypeError (for_of v body s).
Proof.
  intros Hbody v s. unfold for_of.
  apply bind_TypeError; [destruct v; exact I | ].
  intros l. revert s. induction l as [|x rest IH]; intros s; simpl; [exact I | ].
  apply bind_TypeError; [apply Hbody | exact IH].
Qed.

Lemma visit_derivative_TypeError (d : value) (s : summary) :
  throws_only_TypeError (visit_derivative d s).
Proof.
  unfold visit_derivative.
  apply bind_TypeError; [apply derivativeIsOk_TypeError | intros ok].
  destruct (negb (truthy ok)); [exact I | ].
  apply bind_TypeError; [apply get_TypeError | intros nm].
  apply bind_TypeError; [apply get_TypeError | intros ch].
  apply for_of_TypeError, visit_child_TypeError.
Qed.

Lemma get_truthy (v : value) (f : string) :
  truthy v = true -> exists x, get v f = Normal x.
Proof.
  destruct v; simpl; try discriminate; intros _; eauto.
  destruct (lookup f props); eauto.
Qed.

(** What [parseManifest] returns is read off its input: the error
    [no manifest received] exactly for a falsy manifest, the error
    [manifest has no derivatives] exactly for a truthy manifest whose
    [derivatives] is falsy, and otherwise the summary or a [TypeError] that
    the loops threw; it returns no other error. *)
Theorem parseManifest_errors :
  forall manifest : value,
    (parseManifest manifest = Normal (Failure (Error "no manifest received")) <->
     truthy manifest = false) /\
    (parseManifest manifest = Normal (Failure (Error "manifest has no derivatives")) <->
     truthy manifest = true /\
     exists ds, get manifest "derivatives" = Normal ds /\ truthy ds = false) /\
    (forall e, parseManifest manifest = Normal (Failure e) ->
       e = Error "no manifest received" \/
       e = Error "manifest has no derivatives" \/
       exists msg, e = TypeError msg).
Proof.
  intros manifest. unfold parseManifest, parseManifest_try.
  destruct (truthy manifest) eqn:Hm; cbn [negb].
  - destruct (get_truthy manifest "derivatives" Hm) as (ds & Hds).
    rewrite Hds. cbn [bind].
    pose proof (for_of_TypeError visit_derivative visit_derivative_TypeError
                  ds initial_summary) as Hloop.
    destruct (truthy ds) eqn:Ht; cbn [negb].
    + destruct (for_of ds visit_derivative initial_summary) as [s | e'];
        cbn [bind try_catch]; simpl in Hloop.
      * repeat split; try discriminate.
        intros (_ & ds' & Hds' & Ht'). inversion Hds'; subst. congruence.
      * destruct e'; try contradiction.
        repeat split; try discriminate.
        -- intros (_ & ds' & Hds' & Ht'). inversion Hds'; subst. congruence.
        -- intros e He. inversion He; subst. right. right. eauto.
    + cbn [try_catch]. repeat split; try discriminate; eauto.
      intros e He. inversion He. auto.
  - cbn [try_catch]. repeat split; try discriminate; try reflexivity.
    + intros (H & _). discriminate.
    + intros e He. inversion He. auto.
Qed.

(** ** The parser on well-formed manifests *)

(** On a well-formed manifest the parser never returns a [TypeError]: it
    returns a summary when [derivatives] is present and the error
    [manifest has no derivatives] when it is absent. *)
Theorem parseManifest_well_formed_result :
  forall m : Manifest,
    match derivatives m with
    | Some _ => exists s, parseManifest (value_of_manifest m) = Normal (Summary s)
    | None => parseManifest (value_of_manifest m) =
              Normal (Failure (Error "manifest has no derivatives"))
    end.
Proof.
  intros m. rewrite parseManifest_well_formed.
  destruct (derivatives m); [eexists | ]; reflexivity.
Qed.

(** The filter, read on a well-formed derivative: [outputType] contains
    [svf], [progress] is [complete], [status] is [success] and [children] is
    present, be it empty. *)
Theorem passes_filter_iff :
  forall d : Derivative,
    passes_filter d <->
    (exists o, outputType d = Some o /\ str_includes o "svf" = true) /\
    progress d = Some "complete"%string /\
    status d = Some "success"%string /\
    children d <> None.
Proof.
  intros d. rewrite passes_filter_ok. unfold derivative_ok, is_literal. split.
  - destruct (outputType d) as [o|]; [ | discriminate ].
    destruct (children d) as [cs|]; [ | discriminate ].
    intros H. apply andb_prop in H. destruct H as [H Hs].
    apply andb_prop in H. destruct H as [Ho Hp].
    destruct (progress d) as [p|]; [ | discriminate ].
    destruct (status d) as [st|]; [ | discriminate ].
    apply String.eqb_eq in Hp, Hs. subst.
    repeat split; try discriminate. eauto.
  - intros ((o & Ho & Hinc) & Hp & Hs & Hc). rewrite Ho, Hp, Hs, Hinc.
    destruct (children d); [reflexivity | contradiction].
Qed.

(** A manifest none of whose derivatives passes the filter, for instance
    while the translation runs, gives the summary with three empty strings
    and no error. *)
Theorem parseManifest_nothing_passes :
  forall (m : Manifest) (ds : list Derivative),
    derivatives m = Some ds ->
    Forall skipped ds ->
    parseManifest (value_of_manifest m) = Normal (Summary initial_summary).
Proof.
  intros m ds Hm Hds. rewrite parseManifest_well_formed, Hm.
  rewrite skipped_derivatives by exact Hds. reflexivity.
Qed.

Lemma parseManifest_nothing_passes_witness :
  derivatives (manifest_of [in_progress_node]) = Some [in_progress_node] /\
  Forall skipped [in_progress_node] /\
  parseManifest (value_of_manifest (manifest_of [in_progress_node])) =
    Normal (Summary initial_summary).
Proof.
  assert (Hm : derivatives (manifest_of [in_progress_node]) = Some [in_progress_node])
    by reflexivity.
  assert (Hds : Forall skipped [in_progress_node]).
  { constructor; [ | constructor ]. eexists. split; reflexivity. }
  split; [exact Hm | split; [exact Hds | ]].
  exact (parseManifest_nothing_passes _ _ Hm Hds).
Defined.

Lemma passing_in_order_exists (ds : list Derivative) :
  exists passing, passing_in_order ds passing.
Proof.
  induction ds as [|d ds (passing & IH)]; [exists []; constructor | ].
  destruct (derivative_ok d) eqn:Hd.
  - exists (d :: passing). constructor; [apply passes_filter_ok, Hd | exact IH].
  - exists passing. apply passing_skip; [apply skipped_not_ok, Hd | exact IH].
Qed.

Lemma passing_in_order_fold (ds passing : list Derivative) :
  passing_in_order ds passing ->
  forall s, fold_left derivative_step ds s = fold_left derivative_step passing s.
Proof.
  intros H. induction H as [ | d ds passing Hd _ IH | d ds passing Hd _ IH ];
    intros s; simpl.
  - reflexivity.
  - apply IH.
  - rewrite <- IH. f_equal. unfold derivative_step.
    apply skipped_not_ok in Hd. rewrite Hd. reflexivity.
Qed.

(** The derivatives that the filter skips leave no trace: the parser returns
    the same on the manifest cut down to the derivatives that pass, each
    once and in their order; and there is such a cut for every manifest. *)
Theorem parseManifest_skipped_leave_no_trace :
  forall (m : Manifest) (ds : list Derivative),
    derivatives m = Some ds ->
    (exists passing, passing_in_order ds passing) /\
    (forall passing,
       passing_in_order ds passing ->
       parseManifest (value_of_manifest m) =
       parseManifest (value_of_manifest (with_derivatives m passing))).
Proof.
  intros m ds Hm. split; [apply passing_in_order_exists | ].
  intros passing H. rewrite !parseManifest_well_formed, Hm. simpl.
  rewrite (passing_in_order_fold ds passing H). reflexivity.
Qed.

Lemma parseManifest_skipped_leave_no_trace_witness :
  derivatives (manifest_of [database_node; in_progress_node; bare_node]) =
    Some [database_node; in_progress_node; bare_node] /\
  passing_in_order [database_node; in_progress_node; bare_node]
    [database_node; bare_node] /\
  parseManifest
    (value_of_manifest (manifest_of [database_node; in_progress_node; bare_node])) =
  parseManifest
    (value_of_manifest
       (with_derivatives (manifest_of [database_node; in_progress_node; bare_node])
          [database_node; bare_node])).
Proof.
  assert (H : passing_in_order [database_node; in_progress_node; bare_node]
                [database_node; bare_node]).
  { apply passing_keep; [eexists; split; reflexivity | ].
    apply passing_skip; [eexists; split; reflexivity | ].
    apply passing_keep; [eexists; split; reflexivity | constructor]. }
  split; [reflexivity | split; [exact H | ]].
  exact (proj2 (parseManifest_skipped_leave_no_trace
                  (manifest_of [database_node; in_progress_node; bare_node]) _ eq_refl)
           [database_node; bare_node] H).
Defined.

(** ** The status route and [getManifest] *)

Lemma get_manifest_status (m : Manifest) :
  get (value_of_manifest m) "status" = Normal (read (manifest_status m)).
Proof. destruct m as [[s|] [p|] [d|]]; reflexivity. Qed.

Lemma get_manifest_progress (m : Manifest) :
  get (value_of_manifest m) "progress" = Normal (read (manifest_progress m)).
Proof. destruct m as [[s|] [p|] [d|]]; reflexivity. Qed.

(** For a job whose manifest is well formed the status route answers with
    the manifest's own [status] and [progress] and with the messages of the
    top-level derivatives, in order; it does not call [next]. *)
Theorem status_route_well_formed :
  forall (aps_getManifest : string -> completion value) (urn : string) (m : Manifest),
    aps_getManifest urn = Normal (value_of_manifest m) ->
    status_route aps_getManifest urn =
    Json (VObject
            [("status"%string, read (manifest_status m));
             ("progress"%string, read (manifest_progress m));
             ("messages"%string,
              VArray (map VString
                        (flat_map messages_of
                           match derivatives m with
                           | Some ds => ds
                           | None => []
                           end)))]).
Proof.
  intros aps urn m H.
  unfold status_route, getManifest, getManifest_of. rewrite H.
  cbn [try_catch]. unfold status_try. cbn [bind].
  change (truthy (value_of_manifest m)) with true. cbv iota.
  rewrite get_manifest_status, get_manifest_progress.
  destruct (derivatives m) as [ds|] eqn:Hds.
  - rewrite (status_messages_well_formed m ds Hds). reflexivity.
  - unfold status_messages. rewrite get_manifest_derivatives, Hds. reflexivity.
Qed.

Lemma status_route_well_formed_witness :
  (fun _ : string => Normal (value_of_manifest three_node_manifest)) "dXJuOmE"%string =
    Normal (value_of_manifest three_node_manifest) /\
  status_route (fun _ => Normal (value_of_manifest three_node_manifest)) "dXJuOmE" =
    Json (VObject
            [("status"%string, read (manifest_status three_node_manifest));
             ("progress"%string, read (manifest_progress three_node_manifest));
             ("messages"%string,
              VArray (map VString
                        (flat_map messages_of
                           match derivatives three_node_manifest with
                           | Some ds => ds
                           | None => []
                           end)))]).
Proof.
  split; [reflexivity | ].
  exact (status_route_well_formed
           (fun _ => Normal (value_of_manifest three_node_manifest))
           "dXJuOmE"%string three_node_manifest eq_refl).
Defined.

(** A rejection with a status other than 404 is passed to [next] as it is:
    only the 404 is turned into the answer [n/a]. *)
Theorem status_route_rejection :
  forall (aps_getManifest : string -> completion value) (urn : string) (code : Z),
    aps_getManifest urn = Throw (Rejection (Some code)) ->
    (code <> 404%Z ->
     status_route aps_getManifest urn = Next (Rejection (Some code))) /\
    (status_route aps_getManifest urn = Json (VObject [("status"%string, VString "n/a")])
     <-> code = 404%Z).
Proof.
  intros aps urn code H.
  unfold status_route, getManifest, getManifest_of. rewrite H. simpl.
  destruct (Z.eqb_spec code 404) as [-> | Hc]; simpl.
  - split; [intros Hne; contradiction | split; reflexivity].
  - split; [reflexivity | split; [discriminate | contradiction]].
Qed.

Lemma status_route_rejection_witness :
  (fun _ : string => @Throw value (Rejection (Some 500%Z))) "dXJuOmE"%string =
    Throw (Rejection (Some 500%Z)) /\
  (500%Z <> 404%Z ->
   status_route (fun _ => Throw (Rejection (Some 500%Z))) "dXJuOmE" =
     Next (Rejection (Some 500%Z))) /\
  (status_route (fun _ => Throw (Rejection (Some 500%Z))) "dXJuOmE" =
     Json (VObject [("status"%string, VString "n/a")])
   <-> 500%Z = 404%Z).
Proof.
  split; [reflexivity | ].
  exact (status_route_rejection (fun _ => Throw (Rejection (Some 500%Z)))
           "dXJuOmE"%string 500%Z eq_refl).
Defined.

(** [getManifest] resolves exactly when the call resolves, with its body, or
    when the call is rejected with 404, with [null]; it never lets a 404
    through, and what it throws otherwise is the rejection it received, or a
    [TypeError] for an error that has no [response]. *)
Theorem getManifest_outcomes :
  forall (aps_getManifest : string -> completion value) (urn : string),
    (forall v, getManifest aps_getManifest urn = Normal v <->
       aps_getManifest urn = Normal v \/
       (v = VNull /\ aps_getManifest urn = Throw (Rejection (Some 404%Z)))) /\
    getManifest aps_getManifest urn <> Throw (Rejection (Some 404%Z)) /\
    (forall e, getManifest aps_getManifest urn = Throw e ->
       (exists code, code <> 404%Z /\ e = Rejection (Some code) /\
                     aps_getManifest urn = Throw e) \/
       exists msg, e = TypeError msg).
Proof.
  intros aps urn. unfold getManifest, getManifest_of.
  destruct (aps urn) as [body | [msg | msg | [code|]]]; cbn [try_catch].
  - split; [ | split ]; try discriminate.
    intros v. split; [intros H; left; exact H | ].
    intros [H | (_ & H)]; [exact H | discriminate].
  - split; [ | split ]; try discriminate.
    + intros v. split; [discriminate | intros [H | (_ & H)]; discriminate].
    + intros e H. inversion H. right. eauto.
  - split; [ | split ]; try discriminate.
    + intros v. split; [discriminate | intros [H | (_ & H)]; discriminate].
    + intros e H. inversion H. right. eauto.
  - destruct (Z.eqb_spec code 404) as [-> | Hc].
    + split; [ | split ]; try discriminate.
      intros v. split.
      * intros H. inversion H. right. split; reflexivity.
      * intros [H | (-> & _)]; [discriminate | reflexivity].
    + split; [ | split ].
      * intros v. split; [discriminate | ].
        intros [H | (_ & H)]; [discriminate | ]. inversion H. contradiction.
      * intros H. inversion H. contradiction.
      * intros e H. inversion H. left. exists code. auto.
  - split; [ | split ]; try discriminate.
    + intros v. split; [discriminate | intros [H | (_ & H)]; discriminate].
    + intros e H. inversion H. right. eauto.
Qed.

(** ** The shape of a urn *)

Lemma length_string_of_list_ascii (l : list ascii) :
  String.length (string_of_list_ascii l) = List.length l.
Proof. induction l as [|c l IH]; simpl; [reflexivity | rewrite IH; reflexivity]. Qed.

Lemma length_list_ascii_of_string (s : string) :
  List.length (list_ascii_of_string s) = String.length s.
Proof. induction s as [|c s IH]; simpl; [reflexivity | rewrite IH; reflexivity]. Qed.

Lemma length_unpadded (bytes : list ascii) :
  List.length (strip_padding (base64 bytes)) = (4 * List.length bytes + 2) / 3.
Proof.
  induction bytes as [ | x | x y | x y z rest IH ] using bytes_by_three.
  - reflexivity.
  - destruct x. unfold base64, encode1, strip_padding. cbn [filter].
    rewrite !base64_char_not_pad. reflexivity.
  - destruct x, y. unfold base64, encode2, strip_padding. cbn [filter].
    rewrite !base64_char_not_pad. reflexivity.
  - change (base64 (x :: y :: z :: rest)) with (encode3 x y z ++ base64 rest).
    rewrite strip_encode3, length_app, IH.
    replace (List.length (encode3 x y z)) with 4 by (destruct x, y, z; reflexivity).
    cbn [List.length].
    replace (4 * S (S (S (List.length rest))) + 2)
      with (4 * List.length rest + 2 + 4 * 3) by lia.
    rewrite Nat.div_add by discriminate. lia.
Qed.

Lemma Buffer_from_ascii (s : string) :
  forallb (fun c => Nat.ltb (nat_of_ascii c) 128) (list_ascii_of_string s) = true ->
  Buffer_from (js_string_of s) = list_ascii_of_string s.
Proof.
  unfold js_string_of. induction (list_ascii_of_string s) as [|c l IH];
    [reflexivity | ].
  cbn [forallb map]. intros H. apply andb_prop in H. destruct H as [Hc Hl].
  rewrite Buffer_from_cons, (IH Hl).
  destruct c as [b0 b1 b2 b3 b4 b5 b6 b7].
  destruct b7; [ | reflexivity ].
  exfalso. destruct b0, b1, b2, b3, b4, b5, b6; discriminate Hc.
Qed.

(** A urn is four characters for every three bytes of the identifier,
    rounded up: its length is [(4 * n + 2) / 3] for an identifier of [n]
    UTF-8 bytes, and [n] is the number of characters when all of them are
    below U+0080. *)
Theorem urnify_length :
  forall id : js_string,
    String.length (urnify id) = (4 * List.length (Buffer_from id) + 2) / 3 /\
    (forall s : string,
       id = js_string_of s ->
       forallb (fun c => Nat.ltb (nat_of_ascii c) 128) (list_ascii_of_string s) = true ->
       String.length (urnify id) = (4 * String.length s + 2) / 3).
Proof.
  intros id.
  assert (H : String.length (urnify id) = (4 * List.length (Buffer_from id) + 2) / 3).
  { unfold urnify. rewrite length_string_of_list_ascii, length_unpadded. reflexivity. }
  split; [exact H | ].
  intros s -> Hs. rewrite H, (Buffer_from_ascii s Hs), length_list_ascii_of_string.
  reflexivity.
Qed.

Lemma base64_char_in_alphabet (s : sextet) :
  existsb (Ascii.eqb (base64_char s)) (list_ascii_of_string base64_alphabet) = true.
Proof.
  destruct s as [[[[[a b] c] d] e] f].
  destruct a, b, c, d, e, f; reflexivity.
Qed.

Lemma in_alphabet (c : ascii) :
  existsb (Ascii.eqb c) (list_ascii_of_string base64_alphabet) = true ->
  In c (list_ascii_of_string base64_alphabet).
Proof.
  intros H. apply existsb_exists in H. destruct H as (c' & Hin & Heq).
  apply Ascii.eqb_eq in Heq. subst. exact Hin.
Qed.

Lemma unpadded_in_alphabet (bytes : list ascii) (c : ascii) :
  In c (strip_padding (base64 bytes)) ->
  In c (list_ascii_of_string base64_alphabet).
Proof.
  induction bytes as [ | x | x y | x y z rest IH ] using bytes_by_three.
  - intros [].
  - destruct x. unfold base64, encode1, strip_padding. cbn [filter].
    rewrite !base64_char_not_pad. cbn [negb filter Ascii.eqb Bool.eqb].
    intros [<- | [<- | []]]; apply in_alphabet, base64_char_in_alphabet.
  - destruct x, y. unfold base64, encode2, strip_padding. cbn [filter].
    rewrite !base64_char_not_pad. cbn [negb filter Ascii.eqb Bool.eqb].
    intros [<- | [<- | [<- | []]]]; apply in_alphabet, base64_char_in_alphabet.
  - change (base64 (x :: y :: z :: rest)) with (encode3 x y z ++ base64 rest).
    rewrite strip_encode3. intros H. apply in_app_or in H.
    destruct H as [H | H]; [ | exact (IH H) ].
    destruct x, y, z. unfold encode3 in H.
    destruct H as [<- | [<- | [<- | [<- | []]]]];
      apply in_alphabet, base64_char_in_alphabet.
Qed.

(** Every character of a urn is one of the 64 characters of the standard
    base64 alphabet: a letter, a digit, [+] or [/]. *)
Theorem urnify_alphabet :
  forall (id : js_string) (c : ascii),
    In c (list_ascii_of_string (urnify id)) ->
    In c (list_ascii_of_string base64_alphabet).
Proof.
  intros id c. unfold urnify. rewrite list_ascii_of_string_of_list_ascii.
  apply unpadded_in_alphabet.
Qed.

Lemma urnify_alphabet_witness :
  In "+"%char (list_ascii_of_string (urnify grinning_face)) /\
  In "+"%char (list_ascii_of_string base64_alphabet).
Proof.
  assert (H : In "+"%char (list_ascii_of_string (urnify grinning_face)))
    by (right; right; left; reflexivity).
  split; [exact H | exact (urnify_alphabet grinning_face "+"%char H)].
Defined.

Lemma string_of_list_ascii_app (a b : list ascii) :
  string_of_list_ascii (a ++ b) =
  (string_of_list_ascii a ++ string_of_list_ascii b)%string.
Proof. induction a as [|c a IH]; simpl; [reflexivity | rewrite IH; reflexivity]. Qed.

Lemma base64_whole_groups (a b : list ascii) :
  Nat.modulo (List.length a) 3 = 0 ->
  strip_padding (base64 (a ++ b)) =
  strip_padding (base64 a) ++ strip_padding (base64 b).
Proof.
  induction a as [ | x | x y | x y z rest IH ] using bytes_by_three;
    cbn [List.length]; intros Hlen.
  - reflexivity.
  - discriminate.
  - discriminate.
  - change (base64 ((x :: y :: z :: rest) ++ b))
      with (encode3 x y z ++ base64 (rest ++ b)).
    change (base64 (x :: y :: z :: rest)) with (encode3 x y z ++ base64 rest).
    rewrite !strip_encode3, IH, app_assoc; [reflexivity | ].
    replace (S (S (S (List.length rest)))) with (List.length rest + 1 * 3) in Hlen by lia.
    rewrite Nat.Div0.mod_add in Hlen. exact Hlen.
Qed.

Lemma ends_with_high_surrogate_tail (v : code_unit) (rest : js_string) :
  ends_with_high_surrogate (v :: rest) = false ->
  ends_with_high_surrogate rest = false.
Proof. destruct rest; [reflexivity | intros H; exact H]. Qed.

(** [Buffer.from] of a concatenation is the concatenation of the bytes,
    unless the first string ends in a high surrogate that the second could
    complete. *)
Lemma Buffer_from_app (a b : js_string) :
  ends_with_high_surrogate a = false ->
  Buffer_from (a ++ b) = Buffer_from a ++ Buffer_from b.
Proof.
  induction a as [ | u | u v rest IHrest IHtl ] using js_string_ind2.
  - reflexivity.
  - cbn [ends_with_high_surrogate]. intros Hu.
    change ([u] ++ b) with (u :: b). rewrite !Buffer_from_cons, Hu.
    destruct (is_low_surrogate u); cbn [Buffer_from]; rewrite app_nil_r; reflexivity.
  - intros Hends.
    change (ends_with_high_surrogate (u :: v :: rest))
      with (ends_with_high_surrogate (v :: rest)) in Hends.
    change ((u :: v :: rest) ++ b) with (u :: v :: (rest ++ b)).
    rewrite (Buffer_from_cons u (v :: rest ++ b)), (Buffer_from_cons u (v :: rest)).
    change (v :: rest ++ b) with ((v :: rest) ++ b).
    rewrite (IHtl Hends), (IHrest (ends_with_high_surrogate_tail v rest Hends)).
    destruct (is_high_surrogate u); [destruct (is_low_surrogate v) | ];
      [ | | destruct (is_low_surrogate u) ]; rewrite app_assoc; reflexivity.
Qed.

(** The urn of a concatenation: when the first part does not end in a high
    surrogate and its UTF-8 bytes are a whole number of three-byte groups,
    the urn of [a ++ b] is the urn of [a] followed by the urn of [b], so
    identifiers with such a common prefix have urns with a common prefix. *)
Theorem urnify_app :
  forall a b : js_string,
    ends_with_high_surrogate a = false ->
    Nat.modulo (List.length (Buffer_from a)) 3 = 0 ->
    urnify (a ++ b) = (urnify a ++ urnify b)%string.
Proof.
  intros a b Hends Hlen. unfold urnify.
  rewrite (Buffer_from_app a b Hends), (base64_whole_groups _ _ Hlen).
  apply string_of_list_ascii_app.
Qed.

Lemma urnify_app_witness :
  ends_with_high_surrogate (js_string_of "urn:adsk.objects:os.object:xy/") = false /\
  Nat.modulo (List.length (Buffer_from (js_string_of "urn:adsk.objects:os.object:xy/")))
    3 = 0 /\
  urnify (js_string_of "urn:adsk.objects:os.object:xy/" ++ grinning_face) =
    (urnify (js_string_of "urn:adsk.objects:os.object:xy/") ++ urnify grinning_face)%string.
Proof.
  split; [reflexivity | split; [reflexivity | ]].
  exact (urnify_app (js_string_of "urn:adsk.objects:os.object:xy/") grinning_face
           eq_refl eq_refl).
Defined.

(** Without the first condition the equation fails: the halves of a
    surrogate pair have another urn together than one after the other. *)
Example urnify_split_pair :
  urnify ([("216"%char, "061"%char)] ++ [("222"%char, "000"%char)]) = "8J+YgA"%string /\
  (urnify [("216"%char, "061"%char)] ++ urnify [("222"%char, "000"%char)])%string =
    "77+977+9"%string.
Proof. split; reflexivity. Qed.

(** ** The result directory, again *)

Lemma createResultDirectory_proper_name_witness :
  starts_with_slash "/app/routes" = true /\
  proper_name (path_basename "../../etc/passwd") /\
  createResultDirectory "/app/routes" (VString "../../etc/passwd") app_file_system =
    Normal (Directory "/app/results/passwd",
            "/app/results/passwd"%string :: "/app/results"%string :: app_file_system) /\
  "/app/results/passwd"%string =
    (baseResultDir "/app/routes" ++ "/" ++ path_basename "../../etc/passwd")%string.
Proof.
  assert (Habs : starts_with_slash "/app/routes" = true) by reflexivity.
  assert (Hname : proper_name (path_basename "../../etc/passwd"))
    by (repeat split; discriminate).
  assert (Hrun :
    createResultDirectory "/app/routes" (VString "../../etc/passwd") app_file_system =
    Normal (Directory "/app/results/passwd",
            "/app/results/passwd"%string :: "/app/results"%string :: app_file_system))
    by reflexivity.
  split; [exact Habs | split; [exact Hname | split; [exact Hrun | ]]].
  exact (createResultDirectory_proper_name "/app/routes" "../../etc/passwd"
           "/app/results/passwd" app_file_system _ Habs Hname Hrun).
Defined.

Lemma existsSync_cons (p q : string) (fs : file_system) :
  existsSync p fs = true -> existsSync p (q :: fs) = true.
Proof. unfold existsSync. simpl. intros ->. apply orb_true_r. Qed.

Lemma createDirectory_outcome (p : string) (fs fs' : file_system) (created : bool) :
  createDirectory p fs = Normal (created, fs') ->
  created = true /\ existsSync p fs' = true /\
  (forall q, existsSync q fs = true -> existsSync q fs' = true).
Proof.
  unfold createDirectory, mkdirSync.
  destruct (existsSync p fs) eqn:Hp; cbn [negb bind].
  - intros H. inversion H; subst. rewrite Hp. auto.
  - destruct (existsSync (parent_directory p) fs); cbn [bind]; [ | discriminate ].
    assert (Hnew : existsSync p (p :: fs) = true)
      by (unfold existsSync; simpl; rewrite String.eqb_refl; reflexivity).
    rewrite Hnew. intros H. injection H as <- <-. split; [reflexivity | split; [exact Hnew | ]].
    intros q Hq. apply existsSync_cons, Hq.
Qed.

Lemma createDirectory_existing (p : string) (fs : file_system) :
  existsSync p fs = true -> createDirectory p fs = Normal (true, fs).
Proof. intros H. unfold createDirectory. rewrite H. simpl. rewrite H. reflexivity. Qed.

(** [createResultDirectory] only adds to the file system, and it is
    idempotent: once it has returned, a second call on the file system it
    left returns the same and changes nothing. *)
Theorem createResultDirectory_idempotent :
  forall (__dirname : string) (cadFileName : value) (fs fs' : file_system)
         (r : allocation),
    createResultDirectory __dirname cadFileName fs = Normal (r, fs') ->
    (forall q, existsSync q fs = true -> existsSync q fs' = true) /\
    createResultDirectory __dirname cadFileName fs' = Normal (r, fs').
Proof.
  intros dir cadFileName fs fs' r. unfold createResultDirectory.
  destruct (negb (truthy cadFileName)).
  - intros H. inversion H; subst. auto.
  - destruct (createDirectory (baseResultDir dir) fs) as [[c1 fs1] | e] eqn:E1;
      cbn [bind]; [ | discriminate ].
    destruct (createDirectory_outcome _ _ _ _ E1) as (-> & Hbase & Hmono1).
    cbn [negb].
    destruct cadFileName; cbn [bind]; try discriminate.
    destruct (createDirectory (path_join [baseResultDir dir; path_basename s]) fs1)
      as [[c2 fs2] | e] eqn:E2; cbn [bind]; [ | discriminate ].
    destruct (createDirectory_outcome _ _ _ _ E2) as (-> & Hres & Hmono2).
    cbn [negb]. intros H. inversion H; subst.
    split; [intros q Hq; apply Hmono2, Hmono1, Hq | ].
    rewrite (createDirectory_existing (baseResultDir dir) fs') by (apply Hmono2, Hbase).
    cbn [bind negb].
    rewrite (createDirectory_existing _ fs' Hres). reflexivity.
Qed.

Lemma createResultDirectory_idempotent_witness :
  createResultDirectory "/app/routes" (VString "house.rvt") app_file_system =
    Normal (Directory "/app/results/house.rvt",
            "/app/results/house.rvt"%string :: "/app/results"%string :: app_file_system) /\
  (forall q, existsSync q app_file_system = true ->
             existsSync q ("/app/results/house.rvt"%string :: "/app/results"%string
                             :: app_file_system) = true) /\
  createResultDirectory "/app/routes" (VString "house.rvt")
    ("/app/results/house.rvt"%string :: "/app/results"%string :: app_file_system) =
    Normal (Directory "/app/results/house.rvt",
            "/app/results/house.rvt"%string :: "/app/results"%string :: app_file_system).
Proof.
  assert (Hrun :
    createResultDirectory "/app/routes" (VString "house.rvt") app_file_system =
    Normal (Directory "/app/results/house.rvt",
            "/app/results/house.rvt"%string :: "/app/results"%string :: app_file_system))
    by reflexivity.
  split; [exact Hrun | ].
  exact (createResultDirectory_idempotent "/app/routes" (VString "house.rvt")
           app_file_system _ _ Hrun).
Defined.

(** ** Signed downloads *)

Lemma array_join_strings (sep : string) (cs : list string) :
  array_join sep (map VString cs) = Normal (String.concat sep cs).
Proof.
  induction cs as [|c cs IH]; [reflexivity | ].
  destruct cs as [|c' cs']; [reflexivity | ].
  change (array_join sep (map VString (c :: c' :: cs')))
    with (sx <- join_element (VString c) ;;
          srest <- array_join sep (map VString (c' :: cs')) ;;
          Normal (sx ++ sep ++ srest)%string).
  rewrite IH. reflexivity.
Qed.

(** [getDerivativeDownloadUrn] passes the body of the response on as [data]
    and joins the [set-cookie] headers with [;], in order; a response
    without that header makes it throw a [TypeError] instead of returning. *)
Theorem getDerivativeDownloadUrn_cookies :
  forall (call : completion value) (resp body headers : value),
    call = Normal resp ->
    get resp "body" = Normal body ->
    get resp "headers" = Normal headers ->
    (forall cs : list string,
       get headers "set-cookie" = Normal (VArray (map VString cs)) ->
       getDerivativeDownloadUrn_of call =
       Normal (VObject [("data"%string, body);
                        ("cookieValue"%string, VString (String.concat ";" cs))])) /\
    (get headers "set-cookie" = Normal VUndefined ->
     exists msg, getDerivativeDownloadUrn_of call = Throw (TypeError msg)).
Proof.
  intros call resp body headers -> Hbody Hheaders.
  unfold getDerivativeDownloadUrn_of. cbn [bind]. rewrite Hbody, Hheaders. cbn [bind].
  split.
  - intros cs ->. cbn [bind method_join]. rewrite array_join_strings. reflexivity.
  - intros ->. cbn [bind method_join]. eexists. reflexivity.
Qed.

Lemma getDerivativeDownloadUrn_cookies_witness :
  Normal download_response = Normal download_response /\
  get download_response "body" = Normal (VObject [("url"%string, VString "https://cdn/signed")]) /\
  get download_response "headers" =
    Normal (VObject [("set-cookie"%string, VArray [VString "k1=v1"; VString "k2=v2"])]) /\
  get (VObject [("set-cookie"%string, VArray [VString "k1=v1"; VString "k2=v2"])])
      "set-cookie" = Normal (VArray (map VString ["k1=v1"; "k2=v2"]%string)) /\
  getDerivativeDownloadUrn_of (Normal download_response) =
    Normal (VObject [("data"%string, VObject [("url"%string, VString "https://cdn/signed")]);
                     ("cookieValue"%string, VString "k1=v1;k2=v2")]).
Proof.
  repeat (split; [reflexivity | ]).
  exact (proj1 (getDerivativeDownloadUrn_cookies (Normal download_response)
                  download_response _ _ eq_refl eq_refl eq_refl)
           ["k1=v1"; "k2=v2"]%string eq_refl).
Defined.

(** ** The properties route *)

Lemma parseManifest_returns_Error (manifest : value) (e : js_error) :
  parseManifest manifest = Normal (Failure e) -> instanceof_Error e = true.
Proof.
  unfold parseManifest.
  pose proof (parseManifest_try_throws_only_errors manifest) as H.
  destruct (parseManifest_try manifest) as [r | e'] eqn:E; simpl in *.
  - intros Hr. inversion Hr; subst. unfold parseManifest_try in E.
    destruct (negb (truthy manifest)); [inversion E; reflexivity | ].
    destruct (get manifest "derivatives") as [ds | e']; simpl in E; [ | discriminate ].
    destruct (negb (truthy ds)); [inversion E; reflexivity | ].
    destruct (for_of ds visit_derivative initial_summary); simpl in E; discriminate.
  - intros Hr. inversion Hr; subst. exact H.
Qed.

(** The properties route never answers through [res.json]: it calls [next]
    with an error or, when everything succeeds, ends without an answer. *)
Theorem properties_route_never_json :
  forall (aps_getManifest : string -> completion value)
         (aps_getDerivativeDownloadUrl : string -> value -> completion value)
         (__dirname urn : string) (fs : file_system) (body : value),
    properties_route aps_getManifest aps_getDerivativeDownloadUrl __dirname urn fs <>
    Some (Json body).
Proof.
  intros aps dl dir urn fs body. unfold properties_route, properties_try.
  destruct (getManifest aps urn) as [m | e]; cbn [bind]; [ | discriminate ].
  destruct (parseManifest m) as [p | e]; cbn [bind]; [ | discriminate ].
  destruct (parsed_is_Error p); [discriminate | ].
  destruct (createResultDirectory dir (cadFileName (fields_of p)) fs)
    as [[r fs'] | e]; cbn [bind]; [ | discriminate ].
  destruct r; [ | discriminate ].
  destruct (getDerivativeDownloadUrn dl urn (sqLiteUrn (fields_of p)));
    cbn [bind]; [ | discriminate ].
  destruct (getDerivativeDownloadUrn dl urn (propertiesUrn (fields_of p)));
    cbn [bind]; discriminate.
Qed.

(** Whatever error value [parseManifest] returns goes to [next] as it is,
    before any directory is made or any download is asked for; for a job the
    service does not know this is the error [no manifest received]. *)
Theorem properties_route_parse_error :
  forall (aps_getManifest : string -> completion value)
         (aps_getDerivativeDownloadUrl : string -> value -> completion value)
         (__dirname urn : string) (fs : file_system) (manifest : value) (e : js_error),
    getManifest aps_getManifest urn = Normal manifest ->
    parseManifest manifest = Normal (Failure e) ->
    properties_route aps_getManifest aps_getDerivativeDownloadUrl __dirname urn fs =
    Some (Next e).
Proof.
  intros aps dl dir urn fs manifest e Hm Hp.
  unfold properties_route, properties_try. rewrite Hm. cbn [bind]. rewrite Hp. cbn [bind].
  unfold parsed_is_Error. rewrite (parseManifest_returns_Error manifest e Hp).
  reflexivity.
Qed.

Lemma properties_route_parse_error_witness :
  getManifest (fun _ => Throw (Rejection (Some 404%Z))) "dXJuOmE" = Normal VNull /\
  parseManifest VNull = Normal (Failure (Error "no manifest received")) /\
  properties_route (fun _ => Throw (Rejection (Some 404%Z)))
    (fun _ _ => Normal download_response) "/app/routes" "dXJuOmE" app_file_system =
  Some (Next (Error "no manifest received")).
Proof.
  split; [reflexivity | split; [reflexivity | ]].
  exact (properties_route_parse_error (fun _ => Throw (Rejection (Some 404%Z)))
           (fun _ _ => Normal download_response) "/app/routes" "dXJuOmE"
           app_file_system VNull _ eq_refl eq_refl).
Defined.

(** For a job none of whose derivatives passes the filter, the summary has
    an empty file name and the properties route ends in the error of
    [createResultDirectory]: [No CAD file name provided.] *)
Theorem properties_route_incomplete :
  forall (aps_getManifest : string -> completion value)
         (aps_getDerivativeDownloadUrl : string -> value -> completion value)
         (__dirname urn : string) (fs : file_system)
         (m : Manifest) (ds : list Derivative),
    aps_getManifest urn = Normal (value_of_manifest m) ->
    derivatives m = Some ds ->
    Forall skipped ds ->
    properties_route aps_getManifest aps_getDerivativeDownloadUrl __dirname urn fs =
    Some (Next (Error "No CAD file name provided.")).
Proof.
  intros aps dl dir urn fs m ds Ha Hm Hds.
  unfold properties_route, properties_try, getManifest, getManifest_of.
  rewrite Ha. cbn [try_catch bind].
  rewrite parseManifest_well_formed, Hm, skipped_derivatives by exact Hds.
  reflexivity.
Qed.

Lemma properties_route_incomplete_witness :
  (fun _ : string => Normal (value_of_manifest (manifest_of [in_progress_node])))
    "dXJuOmE"%string = Normal (value_of_manifest (manifest_of [in_progress_node])) /\
  derivatives (manifest_of [in_progress_node]) = Some [in_progress_node] /\
  Forall skipped [in_progress_node] /\
  properties_route (fun _ => Normal (value_of_manifest (manifest_of [in_progress_node])))
    (fun _ _ => Normal download_response) "/app/routes" "dXJuOmE" app_file_system =
  Some (Next (Error "No CAD file name provided.")).
Proof.
  assert (Hds : Forall skipped [in_progress_node]).
  { constructor; [ | constructor ]. eexists. split; reflexivity. }
  split; [reflexivity | split; [reflexivity | split; [exact Hds | ]]].
  exact (properties_route_incomplete
           (fun _ => Normal (value_of_manifest (manifest_of [in_progress_node])))
           (fun _ _ => Normal download_response) "/app/routes" "dXJuOmE"
           app_file_system (manifest_of [in_progress_node]) [in_progress_node]
           eq_refl eq_refl Hds).
Defined.

(** ** Buckets and the listing *)

(** [ensureBucketExists] succeeds exactly when the bucket is there, or is
    reported missing with a 404 and is then created; and the bucket it
    creates is the one asked for, with the policy [temporary].
    [bucketExists] answers [false] exactly on a 404, and where it answers
    [true] nothing is created. *)
Theorem ensureBucketExists_outcomes :
  forall (aps_getBucketDetails : string -> completion value)
         (aps_createBucket : value -> completion value) (bucketKey : string),
    (ensureBucketExists aps_getBucketDetails aps_createBucket bucketKey = Normal tt <->
     (exists v, aps_getBucketDetails bucketKey = Normal v) \/
     (aps_getBucketDetails bucketKey = Throw (Rejection (Some 404%Z)) /\
      exists v, aps_createBucket
                  (VObject [("bucketKey"%string, VString bucketKey);
                            ("policyKey"%string, VString "temporary")]) = Normal v)) /\
    (bucketExists aps_getBucketDetails bucketKey = Normal false <->
     aps_getBucketDetails bucketKey = Throw (Rejection (Some 404%Z))) /\
    (bucketExists aps_getBucketDetails bucketKey = Normal true <->
     exists v, aps_getBucketDetails bucketKey = Normal v).
Proof.
  intros details create key. unfold ensureBucketExists, bucketExists, unless_404.
  destruct (details key) as [v | [msg | msg | [code|]]]; cbn [bind try_catch].
  - split; [ | split ].
    + split; [intros _; left; eauto | reflexivity].
    + split; discriminate.
    + split; [intros _; eauto | reflexivity].
  - split; [ | split ]; split; try discriminate;
      try (intros [(v & H) | (H & _)]; discriminate); intros (v & H); discriminate.
  - split; [ | split ]; split; try discriminate;
      try (intros [(v & H) | (H & _)]; discriminate); intros (v & H); discriminate.
  - destruct (Z.eqb_spec code 404) as [-> | Hc].
    + split; [ | split ].
      * destruct (create _) as [v | e]; cbn [bind]; split; try discriminate.
        -- intros _. right. eauto.
        -- reflexivity.
        -- intros [(v & H) | (_ & v & H)]; discriminate.
      * split; reflexivity.
      * split; [discriminate | intros (v & H); discriminate].
    + split; [ | split ]; split; try discriminate.
      * intros [(v & H) | (H & _)]; [discriminate | ]. inversion H. contradiction.
      * intros H. inversion H. contradiction.
      * intros (v & H). discriminate.
  - split; [ | split ]; split; try discriminate;
      try (intros [(v & H) | (H & _)]; discriminate); intros (v & H); discriminate.
Qed.

Lemma listObjects_loop_pages
    (aps_getObjects URL_startAt : value -> completion value) :
  forall (rest : list (list value * value)) (fuel : nat) (resp body next : value)
         (acc : list value),
    get resp "body" = Normal body ->
    get body "next" = Normal next ->
    match rest with
    | [] => truthy next = false
    | _ => truthy next = true /\
           exists startAt,
             URL_startAt next = Normal startAt /\
             serves_pages aps_getObjects URL_startAt (page_options (Some startAt)) rest
    end ->
    List.length rest <= fuel ->
    listObjects_loop aps_getObjects URL_startAt fuel resp (VArray acc) =
    Normal (Some (VArray (acc ++ List.concat (map fst rest)))).
Proof.
  induction rest as [|[items next'] rest IH];
    intros fuel resp body next acc Hbody Hnext Hrest Hfuel.
  - destruct fuel; simpl; rewrite Hbody; cbn [bind]; rewrite Hnext; cbn [bind];
      rewrite Hrest; simpl; rewrite app_nil_r; reflexivity.
  - destruct fuel as [|fuel]; [simpl in Hfuel; lia | ].
    destruct Hrest as (Htruthy & startAt & Hurl & Hserves).
    cbn [serves_pages] in Hserves.
    destruct Hserves as ((resp' & body' & Hcall & Hbody' & Hitems & Hnext') & Hlater).
    cbn [listObjects_loop]. rewrite Hbody. cbn [bind]. rewrite Hnext. cbn [bind].
    rewrite Htruthy, Hurl. cbn [bind]. rewrite Hcall. cbn [bind].
    rewrite Hbody'. cbn [bind]. rewrite Hitems. cbn [bind method_concat array_concat].
    rewrite (IH fuel resp' body' next' (acc ++ items) Hbody' Hnext' Hlater)
      by (simpl in Hfuel; lia).
    cbn [map fst List.concat]. rewrite app_assoc. reflexivity.
Qed.

(** [listObjects] follows the links from page to page and returns the items
    of all pages, in the order of the pages: with the bucket in place and
    the service holding the chain [pages], it returns their concatenation as
    soon as it may fetch as many pages as there are. *)
Theorem listObjects_all_pages :
  forall (APS_BUCKET : string)
         (aps_getBucketDetails : string -> completion value)
         (aps_createBucket aps_getObjects URL_startAt : value -> completion value)
         (pages : list (list value * value)) (fuel : nat),
    ensureBucketExists aps_getBucketDetails aps_createBucket APS_BUCKET = Normal tt ->
    serves_pages aps_getObjects URL_startAt (page_options None) pages ->
    List.length pages <= S fuel ->
    listObjects APS_BUCKET aps_getBucketDetails aps_createBucket aps_getObjects
      URL_startAt fuel =
    Normal (Some (VArray (List.concat (map fst pages)))).
Proof.
  intros bucket details create getObjects url pages fuel Hensure Hserves Hfuel.
  destruct pages as [|[items next] rest]; [contradiction | ].
  cbn [serves_pages] in Hserves.
  destruct Hserves as ((resp & body & Hcall & Hbody & Hitems & Hnext) & Hlater).
  unfold listObjects. rewrite Hensure. cbn [bind]. rewrite Hcall. cbn [bind].
  rewrite Hbody. cbn [bind]. rewrite Hitems. cbn [bind].
  apply (listObjects_loop_pages getObjects url rest fuel resp body next items
           Hbody Hnext Hlater).
  simpl in Hfuel. lia.
Qed.

Lemma listObjects_all_pages_witness :
  ensureBucketExists (fun _ => Normal VUndefined) (fun _ => Normal VUndefined)
    "models" = Normal tt /\
  serves_pages two_page_service (fun _ => Normal (VString "c")) (page_options None)
    [([VString "a"; VString "b"], VString "https://oss/objects?startAt=c");
     ([VString "c"], VUndefined)] /\
  2 <= 2 /\
  listObjects "models" (fun _ => Normal VUndefined) (fun _ => Normal VUndefined)
    two_page_service (fun _ => Normal (VString "c")) 1 =
  Normal (Some (VArray [VString "a"; VString "b"; VString "c"])).
Proof.
  assert (Hserves :
    serves_pages two_page_service (fun _ => Normal (VString "c")) (page_options None)
      [([VString "a"; VString "b"], VString "https://oss/objects?startAt=c");
       ([VString "c"], VUndefined)]).
  { split.
    - exists first_page. eexists. repeat split; reflexivity.
    - split; [reflexivity | ]. exists (VString "c"). split; [reflexivity | ].
      split; [ | reflexivity ].
      exists second_page. eexists. repeat split; reflexivity. }
  split; [reflexivity | split; [exact Hserves | split; [lia | ]]].
  exact (listObjects_all_pages "models" (fun _ => Normal VUndefined)
           (fun _ => Normal VUndefined) two_page_service
           (fun _ => Normal (VString "c")) _ 1 eq_refl Hserves (le_n 2)).
Defined.

(** ** The listing route *)

Lemma map_values_objects (Buffer_from_other : value -> completion (list ascii))
    (objs : list StoredObject) :
  map_values (listed_model Buffer_from_other) (map value_of_object objs) =
  Normal (map model_of_object objs).
Proof.
  induction objs as [|o objs IH]; [reflexivity | ].
  cbn [map map_values]. rewrite IH. reflexivity.
Qed.


Lemma map_values_app (f : value -> completion value) (l1 l2 : list value)
    (ys : list value) :
  map_values f l1 = Normal ys ->
  map_values f (l1 ++ l2) = (zs <- map_values f l2 ;; Normal (ys ++ zs)).
Proof.
  revert ys. induction l1 as [|x l1 IH]; intros ys; simpl.
  - intros H. inversion H. destruct (map_values f l2); reflexivity.
  - destruct (f x) as [y | e]; cbn [bind]; [ | discriminate ].
    destruct (map_values f l1) as [ys' | e]; cbn [bind]; [ | discriminate ].
    intros H. inversion H; subst. rewrite (IH ys' eq_refl).
    destruct (map_values f l2); reflexivity.
Qed.

(** One listed object without an identifier fails the whole listing: the
    route calls [next] with the [TypeError] of [Buffer.from] and answers no
    model at all. *)
Theorem models_route_missing_objectId :
  forall (Buffer_from_other : value -> completion (list ascii))
         (before : list StoredObject) (bad : value) (after : list value),
    truthy bad = true ->
    get bad "objectId" = Normal VUndefined ->
    models_route_of Buffer_from_other
      (Normal (VArray (map value_of_object before ++ bad :: after))) =
    Next (TypeError "The first argument must be of type string").
Proof.
  intros bfo before bad after Ht Hid.
  unfold models_route_of. cbn [bind method_map].
  rewrite (map_values_app _ _ _ _ (map_values_objects bfo before)).
  cbn [map_values]. unfold listed_model at 1.
  destruct (get_truthy bad "objectKey" Ht) as (k & Hk).
  rewrite Hk, Hid. reflexivity.
Qed.

Lemma models_route_missing_objectId_witness :
  truthy (VObject [("objectKey"%string, VString "b.rvt")]) = true /\
  get (VObject [("objectKey"%string, VString "b.rvt")]) "objectId" = Normal VUndefined /\
  models_route_of (fun _ => Normal [])
    (Normal (VArray (map value_of_object [mkStoredObject "a.rvt" "urn:a"]
                       ++ VObject [("objectKey"%string, VString "b.rvt")] :: []))) =
  Next (TypeError "The first argument must be of type string").
Proof.
  split; [reflexivity | split; [reflexivity | ]].
  exact (models_route_missing_objectId (fun _ => Normal [])
           [mkStoredObject "a.rvt" "urn:a"]
           (VObject [("objectKey"%string, VString "b.rvt")]) [] eq_refl eq_refl).
Defined.

(** ** The upload route *)

(** When the upload route answers through [res.json], the urn it answers
    with is the urn of the translation job the service accepted, started
    with the entry point of the request. *)
Theorem post_route_answer :
  forall (Buffer_from_other : value -> completion (list ascii))
         (aps_translate : value -> completion value)
         (uploadObject : value -> value -> upload_outcome) (req body : value),
    post_route Buffer_from_other aps_translate uploadObject req = Replied (Json body) ->
    exists fields name urn accepted,
      get req "fields" = Normal fields /\
      body = VObject [("name"%string, name); ("urn"%string, urn)] /\
      aps_translate
        (translation_job urn
           match get fields "model-zip-entrypoint" with
           | Normal entrypoint => entrypoint
           | Throw _ => VUndefined
           end) = Normal accepted.
Proof.
  intros bfo tr up req body. unfold post_route.
  destruct (files <- get req "files" ;; get files "model-file") as [file | e];
    [ | discriminate ].
  destruct (negb (truthy file)); [discriminate | ].
  destruct (get file "name") as [name | e]; cbn [bind]; [ | discriminate ].
  destruct (get file "path") as [path | e]; cbn [bind]; [ | discriminate ].
  destruct (up name path) as [obj | v | e]; try discriminate.
  destruct (get obj "objectId") as [objectId | e]; cbn [bind]; [ | discriminate ].
  destruct (urnify_value bfo objectId) as [urn | e] eqn:Hurn; cbn [bind];
    [ | discriminate ].
  destruct (get req "fields") as [fields | e] eqn:Hfields; cbn [bind];
    [ | discriminate ].
  destruct (get fields "model-zip-entrypoint") as [entrypoint | e] eqn:Hentry;
    cbn [bind]; [ | discriminate ].
  unfold translateObject.
  destruct (tr (translation_job urn entrypoint)) as [accepted | e] eqn:Htr; cbn [bind];
    [ | discriminate ].
  destruct (get obj "objectKey") as [key | e]; cbn [bind]; [ | discriminate ].
  intros H. inversion H; subst.
  exists fields, key, urn, accepted. rewrite Hentry.
  split; [reflexivity | split; [reflexivity | exact Htr]].
Qed.

Lemma post_route_answer_witness :
  post_route (fun _ => Normal []) (fun _ => Normal VUndefined)
    (fun _ _ => Uploaded (VObject [("objectKey"%string, VString "house.rvt");
                                   ("objectId"%string, VString "Man")]))
    upload_request =
    Replied (Json (VObject [("name"%string, VString "house.rvt");
                            ("urn"%string, VString "TWFu")])) /\
  exists fields name urn accepted,
    get upload_request "fields" = Normal fields /\
    VObject [("name"%string, VString "house.rvt"); ("urn"%string, VString "TWFu")] =
      VObject [("name"%string, name); ("urn"%string, urn)] /\
    (fun _ : value => Normal VUndefined)
      (translation_job urn
         match get fields "model-zip-entrypoint" with
         | Normal entrypoint => entrypoint
         | Throw _ => VUndefined
         end) = Normal accepted.
Proof.
  assert (H :
    post_route (fun _ => Normal []) (fun _ => Normal VUndefined)
      (fun _ _ => Uploaded (VObject [("objectKey"%string, VString "house.rvt");
                                     ("objectId"%string, VString "Man")]))
      upload_request =
    Replied (Json (VObject [("name"%string, VString "house.rvt");
                            ("urn"%string, VString "TWFu")]))) by reflexivity.
  split; [exact H | ].
  exact (post_route_answer _ _ _ _ _ H).
Defined.

(** Without the file field the upload route answers 400 and asks nothing of
    the services; and when the upload fails or throws, [next] gets what was
    thrown and no translation is started. *)
Theorem post_route_before_translation :
  forall (Buffer_from_other : value -> completion (list ascii))
         (aps_translate : value -> completion value)
         (uploadObject : value -> value -> upload_outcome)
         (req files file : value),
    get req "files" = Normal files ->
    get files "model-file" = Normal file ->
    (truthy file = false ->
     post_route Buffer_from_other aps_translate uploadObject req =
     BadRequest missing_field_message) /\
    (truthy file = true ->
     forall name path,
       get file "name" = Normal name -> get file "path" = Normal path ->
       (forall v, uploadObject name path = UploadFailed v ->
          post_route Buffer_from_other aps_translate uploadObject req = NextValue v) /\
       (forall e, uploadObject name path = UploadThrew e ->
          post_route Buffer_from_other aps_translate uploadObject req =
          Replied (Next e))).
Proof.
  intros bfo tr up req files file Hfiles Hfile.
  unfold post_route. rewrite Hfiles. cbn [bind]. rewrite Hfile.
  split; intros Ht; rewrite Ht; cbn [negb]; [reflexivity | ].
  intros name path Hname Hpath. rewrite Hname, Hpath. cbn [bind].
  split; intros x Hx; rewrite Hx; reflexivity.
Qed.

Lemma post_route_before_translation_witness :
  get (VObject [("files"%string, VObject [])]) "files" = Normal (VObject []) /\
  get (VObject []) "model-file" = Normal VUndefined /\
  (truthy VUndefined = false ->
   post_route (fun _ => Normal []) (fun _ => Normal VUndefined)
     (fun _ _ => UploadThrew (Error "unused"))
     (VObject [("files"%string, VObject [])]) =
   BadRequest missing_field_message).
Proof.
  split; [reflexivity | split; [reflexivity | ]].
  exact (proj1 (post_route_before_translation (fun _ => Normal [])
                  (fun _ => Normal VUndefined)
                  (fun _ _ => UploadThrew (Error "unused"))
                  (VObject [("files"%string, VObject [])]) (VObject []) VUndefined
                  eq_refl eq_refl)).
Defined.

(** ** The upload *)

(** What a return of [uploadObject] guarantees: the bucket was ensured, the
    file was read, its bytes were uploaded under the object name, and the
    first result reports no error; the object returned is the [completed] of
    that result.  A first result with an error is thrown, not returned. *)
Theorem uploadObject_returned :
  forall (APS_BUCKET : string)
         (aps_getBucketDetails : string -> completion value)
         (aps_createBucket fs_readFile aps_uploadResources : value -> completion value)
         (objectName filePath completed : value),
    uploadObject APS_BUCKET aps_getBucketDetails aps_createBucket fs_readFile
      aps_uploadResources objectName filePath = Uploaded completed ->
    ensureBucketExists aps_getBucketDetails aps_createBucket APS_BUCKET = Normal tt /\
    exists buffer results first error,
      fs_readFile filePath = Normal buffer /\
      aps_uploadResources
        (VArray [VObject [("objectKey"%string, objectName); ("data"%string, buffer)]]) =
        Normal results /\
      first_element results = Normal first /\
      get first "error" = Normal error /\ truthy error = false /\
      get first "completed" = Normal completed.
Proof.
  intros bucket details create readFile upload objectName filePath completed.
  unfold uploadObject.
  destruct (ensureBucketExists details create bucket) as [[] | e]; cbn [bind];
    [ | discriminate ].
  destruct (readFile filePath) as [buffer | e] eqn:Hread; cbn [bind]; [ | discriminate ].
  destruct (upload _) as [results | e] eqn:Hup; cbn [bind]; [ | discriminate ].
  destruct (first_element results) as [first | e] eqn:Hfirst; cbn [bind];
    [ | discriminate ].
  destruct (get first "error") as [error | e] eqn:Herr; cbn [bind]; [ | discriminate ].
  destruct (get first "completed") as [c | e] eqn:Hc; cbn [bind]; [ | discriminate ].
  destruct (truthy error) eqn:Ht; [discriminate | ].
  intros H. inversion H; subst.
  split; [reflexivity | ].
  exists buffer, results, first, error. auto 8.
Qed.

Lemma uploadObject_returned_witness :
  uploadObject "models" (fun _ => Normal VUndefined) (fun _ => Normal VUndefined)
    (fun _ => Normal (VString "bytes"))
    (fun _ => Normal (VArray [VObject [("completed"%string, VString "stored")]]))
    (VString "house.rvt") (VString "/tmp/upload_1") = Uploaded (VString "stored") /\
  ensureBucketExists (fun _ => Normal VUndefined) (fun _ => Normal VUndefined)
    "models" = Normal tt /\
  exists buffer results first error,
    (fun _ : value => Normal (VString "bytes")) (VString "/tmp/upload_1") = Normal buffer /\
    (fun _ : value => Normal (VArray [VObject [("completed"%string, VString "stored")]]))
      (VArray [VObject [("objectKey"%string, VString "house.rvt");
                        ("data"%string, buffer)]]) = Normal results /\
    first_element results = Normal first /\
    get first "error" = Normal error /\ truthy error = false /\
    get first "completed" = Normal (VString "stored").
Proof.
  split; [reflexivity | ].
  exact (uploadObject_returned "models" (fun _ => Normal VUndefined)
           (fun _ => Normal VUndefined) (fun _ => Normal (VString "bytes"))
           (fun _ => Normal (VArray [VObject [("completed"%string, VString "stored")]]))
           (VString "house.rvt") (VString "/tmp/upload_1") (VString "stored") eq_refl).
Defined.
